(** * Key tracker backend: the assignment ledger of [routes/keys.js]

    A shallow embedding of the Express handlers of [src/routes/keys.js],
    [src/routes/users.js] and [src/routes/auth.js] over a model of the
    SQLite database created in [src/index.js].

    - A table is the list of its rows in rowid order, together with the
      AUTOINCREMENT counter SQLite keeps for it in [sqlite_sequence].
    - An [async] handler is a tree of awaited database statements: between
      two [await]s the handler runs without interruption, and at each
      [await] the event loop may run other requests.  The same tree is run
      to completion ([run]) for a request served alone, and interleaved
      with other requests ([run_schedule]). *)

From Stdlib Require Import String ZArith List Bool Lia Permutation Sorted.
Import ListNotations.
Local Open Scope Z_scope.

(** ** The schema of [index.js] *)

Module Schema.

(** [users]: id, email (UNIQUE NOT NULL), password, isActive (DEFAULT 1),
    createdAt and updatedAt (DEFAULT CURRENT_TIMESTAMP).  A DATETIME is a
    number of seconds: CURRENT_TIMESTAMP has a resolution of one second. *)
Record user := mkUser {
  u_id : Z;
  u_email : string;
  u_password : string;
  u_isActive : bool;
  u_createdAt : Z;
  u_updatedAt : Z
}.

(** [keys]: id, identifier (UNIQUE NOT NULL), isActive (DEFAULT 1),
    createdAt. *)
Record key := mkKey {
  k_id : Z;
  k_identifier : string;
  k_isActive : bool;
  k_createdAt : Z
}.

(** [key_assignments]: id, keyId, assignedTo, assignedBy, assignedAt
    (DEFAULT CURRENT_TIMESTAMP), returnedAt (nullable). *)
Record assignment := mkAssignment {
  id : Z;
  keyId : Z;
  assignedTo : Z;
  assignedBy : Z;
  assignedAt : Z;
  returnedAt : option Z
}.

(** The database file: the three tables the routes touch and their
    AUTOINCREMENT counters.  ([password_resets] is created by [index.js]
    but no route under [src/] reads or writes it.) *)
Record database := mkDatabase {
  users : list user;
  users_seq : Z;
  keys : list key;
  keys_seq : Z;
  key_assignments : list assignment;
  key_assignments_seq : Z
}.

(** The database right after the CREATE TABLE IF NOT EXISTS statements have
    run on a fresh file. *)
Definition db_init : database := mkDatabase [] 0 [] 0 [] 0.

Definition set_users (d : database) (us : list user) (s : Z) : database :=
  mkDatabase us s (keys d) (keys_seq d) (key_assignments d)
             (key_assignments_seq d).

Definition set_keys (d : database) (ks : list key) (s : Z) : database :=
  mkDatabase (users d) (users_seq d) ks s (key_assignments d)
             (key_assignments_seq d).

Definition set_key_assignments (d : database) (l : list assignment) (s : Z)
  : database :=
  mkDatabase (users d) (users_seq d) (keys d) (keys_seq d) l s.

End Schema.
Import Schema.

(** ** Request values *)

(** A request value that ends up bound to an INTEGER column, as it reaches
    SQLite.  What a raw value is depends on where it stands.
    - A body field of [assign], which [isInt] validates: [IntField z] is a
      value that [isInt] accepts and that the column's INTEGER affinity
      reads as the integer [z] (the number [5], the string ["5"]);
      [NotInt] is a value that [isInt] rejects (missing, ["abc"], [5.5],
      ["5.0"]) and that therefore never reaches a statement.
    - A path parameter ([:keyId], [:id]), which nothing validates:
      [IntField z] is a text that SQLite reads as the integer [z] when it
      compares it with the column (["5"], and also ["5.0"], ["5e0"] and
      [" 5"]); [NotInt] is a text that it reads as no integer (["abc"],
      ["5.5"]). *)
Inductive field := IntField (z : Z) | NotInt.

Definition isInt (f : field) : bool :=
  match f with IntField _ => true | NotInt => false end.

(** Comparison of an INTEGER column with a bound parameter: a parameter
    that SQLite reads as no integer equals no integer. *)
Definition col_eq (col : Z) (param : field) : bool :=
  match param with IntField z => col =? z | NotInt => false end.

(** ** Database statements *)

(** What a promise returned by [req.db.get/run/all] settles to. *)
Inductive outcome (A : Type) :=
| Resolved (a : A)
| Rejected (message : string).
Arguments Resolved {A} a.
Arguments Rejected {A} message.

(** A row of the history query: [ka.*] with the two joined emails. *)
Record history_row := mkHistoryRow {
  ka : assignment;
  assignedToEmail : string;
  assignedByEmail : string
}.

(** The SQL statements the handlers issue, indexed by their result. *)
Inductive stmt : Type -> Type :=
| SelectActiveKeys : stmt (list key)
| InsertKey (identifier : string) : stmt Z
| SelectOpenAssignment (k : field) : stmt (option assignment)
| InsertAssignment (k a b : Z) : stmt Z
| UpdateReturned (k : field) : stmt unit
| SelectHistory (k : field) : stmt (list history_row)
| InsertUser (email password : string) : stmt Z.

(** The conditions under which one statement executes: the value of
    CURRENT_TIMESTAMP, and whether the storage layer fails it (I/O error,
    locked file).  SQLite statements are atomic: a statement that fails
    leaves the database as it was. *)
Record tick := mkTick { now : Z; fault : bool }.

Definition is_open (r : assignment) : bool :=
  match returnedAt r with None => true | Some _ => false end.

(** [WHERE keyId = ? AND returnedAt IS NULL] *)
Definition open_for (k : field) (r : assignment) : bool :=
  col_eq (keyId r) k && is_open r.

(** [SET returnedAt = CURRENT_TIMESTAMP] on the rows the WHERE selects. *)
Definition close_row (k : field) (t : Z) (r : assignment) : assignment :=
  if open_for k r
  then mkAssignment (id r) (keyId r) (assignedTo r) (assignedBy r)
                    (assignedAt r) (Some t)
  else r.

(** [FROM key_assignments ka JOIN users u1 ON ka.assignedTo = u1.id
     JOIN users u2 ON ka.assignedBy = u2.id WHERE ka.keyId = ?] *)
Definition history_join (d : database) (k : field) : list history_row :=
  flat_map (fun r =>
    flat_map (fun u1 =>
      map (fun u2 => mkHistoryRow r (u_email u1) (u_email u2))
          (filter (fun u => u_id u =? assignedBy r) (users d)))
      (filter (fun u => u_id u =? assignedTo r) (users d)))
    (filter (fun r => col_eq (keyId r) k) (key_assignments d)).

(** [ORDER BY ka.assignedAt DESC].  The clause names no other sort key; SQL
    leaves the relative order of rows with equal [assignedAt] open, and
    SQLite's sorter keeps them in the order the scan produced them: a row
    is placed in front of the rows scanned after it that are not newer. *)
Fixpoint insert_desc (x : history_row) (l : list history_row)
  : list history_row :=
  match l with
  | [] => [x]
  | y :: l' =>
      if assignedAt (ka y) <=? assignedAt (ka x) then x :: l
      else y :: insert_desc x l'
  end.

Definition order_by_assignedAt_desc (l : list history_row)
  : list history_row :=
  fold_right insert_desc [] l.

Definition unique_failed (what : string) : string :=
  String.append "SQLITE_CONSTRAINT: UNIQUE constraint failed: " what.

Definition io_error : string := "SQLITE_IOERR: disk I/O error".

(** [message.includes(part)] *)
Definition includes (message part : string) : bool :=
  match String.index 0 part message with Some _ => true | None => false end.

(** Execution of one statement.  The FOREIGN KEY clauses of the schema take
    no part: SQLite enforces them only after [PRAGMA foreign_keys = ON],
    which the program never issues, so an INSERT into [key_assignments]
    looks at neither [keys] nor [users]. *)
Definition exec {A : Type} (q : stmt A) (t : tick) (d : database)
  : database * outcome A :=
  if fault t then (d, Rejected io_error) else
  match q in stmt T return database * outcome T with
  | SelectActiveKeys =>
      (d, Resolved (filter k_isActive (keys d)))
  | InsertKey identifier =>
      if existsb (fun k => String.eqb (k_identifier k) identifier) (keys d)
      then (d, Rejected (unique_failed "keys.identifier"))
      else
        let lastID := keys_seq d + 1 in
        (set_keys d (keys d ++ [mkKey lastID identifier true (now t)]) lastID,
         Resolved lastID)
  | SelectOpenAssignment k =>
      (d, Resolved (find (open_for k) (key_assignments d)))
  | InsertAssignment k a b =>
      let lastID := key_assignments_seq d + 1 in
      (set_key_assignments d
         (key_assignments d ++ [mkAssignment lastID k a b (now t) None])
         lastID,
       Resolved lastID)
  | UpdateReturned k =>
      (set_key_assignments d
         (map (close_row k (now t)) (key_assignments d))
         (key_assignments_seq d),
       Resolved tt)
  | SelectHistory k =>
      (d, Resolved (order_by_assignedAt_desc (history_join d k)))
  | InsertUser email password =>
      if existsb (fun u => String.eqb (u_email u) email) (users d)
      then (d, Rejected (unique_failed "users.email"))
      else
        let lastID := users_seq d + 1 in
        (set_users d
           (users d ++ [mkUser lastID email password true (now t) (now t)])
           lastID,
         Resolved lastID)
  end.

(** ** Handlers *)

(** [res.status(s).json(b)]. *)
Inductive body :=
| Errors                              (* { errors: errors.array() } *)
| Error (msg : string)                (* { error: msg } *)
| Message (msg : string)              (* { message: msg } *)
| Id (lastID : Z)                     (* { id: result.lastID } *)
| IdIdentifier (lastID : Z) (identifier : string)
| UserCreated (lastID : Z) (email tempPassword : string)
| KeyList (rows : list key)
| History (rows : list history_row).

Record response := json { status : Z; payload : body }.

(** An [async (req, res) => ...] body: it answers, or awaits a statement
    and goes on with what the promise settled to.  A [try { } catch] is the
    [Rejected] branch of the continuation. *)
Inductive handler : Type :=
| Respond (r : response)
| Await {A : Type} (q : stmt A) (k : outcome A -> handler).

Notation "'let/await' x ':=' q 'catch' h 'in' k" :=
  (Await q (fun o => match o with
                     | Resolved x => k
                     | Rejected _ => h
                     end))
  (at level 10, x pattern, q at level 10, h at level 10, k at level 200).

Module Keys.

(** [router.get("/")] *)
Definition list_keys : handler :=
  let/await ks := SelectActiveKeys
    catch Respond (json 500 (Error "Error fetching keys")) in
  Respond (json 200 (KeyList ks)).

(** [router.post("/", body("identifier").notEmpty(), ...)] *)
Definition create_key (identifier : string) : handler :=
  if String.eqb identifier EmptyString then Respond (json 400 Errors) else
  Await (InsertKey identifier) (fun o =>
    match o with
    | Resolved lastID => Respond (json 201 (IdIdentifier lastID identifier))
    | Rejected message =>
        if includes message "UNIQUE constraint failed"
        then Respond (json 400 (Error "Key identifier already exists"))
        else Respond (json 500 (Error "Error creating key"))
    end).

(** [router.post("/assign", body("keyId").isInt(),
    body("assignedTo").isInt(), ...)]; [actor] is [req.user.id]. *)
Definition assign (keyId assignedTo : field) (actor : Z) : handler :=
  match keyId, assignedTo with
  | IntField k, IntField a =>
      (* Check if key is already assigned *)
      let/await currentAssignment := SelectOpenAssignment keyId
        catch Respond (json 500 (Error "Error assigning key")) in
      match currentAssignment with
      | Some _ => Respond (json 400 (Error "Key is already assigned"))
      | None =>
          let/await lastID := InsertAssignment k a actor
            catch Respond (json 500 (Error "Error assigning key")) in
          Respond (json 201 (Id lastID))
      end
  | _, _ => Respond (json 400 Errors)
  end.

(** [router.post("/return/:keyId")]; [keyId] is [req.params.keyId]. *)
Definition return_key (keyId : field) : handler :=
  let/await _ := UpdateReturned keyId
    catch Respond (json 500 (Error "Error returning key")) in
  Respond (json 200 (Message "Key returned successfully")).

(** [router.get("/history/:keyId")] *)
Definition history (keyId : field) : handler :=
  let/await rows := SelectHistory keyId
    catch Respond (json 500 (Error "Error fetching key history")) in
  Respond (json 200 (History rows)).

End Keys.

Module Users.

(** [router.post("/", body("email").isEmail(), ...)] of [routes/users.js].
    [valid] is the verdict of [isEmail] on [email]; [hashedPassword] is
    what [bcrypt.hash(tempPassword, 10)] produced. *)
Definition create_user (email : string) (valid : bool)
  (hashedPassword : string) : handler :=
  if negb valid then Respond (json 400 Errors) else
  Await (InsertUser email hashedPassword) (fun o =>
    match o with
    | Resolved lastID =>
        Respond (json 201 (UserCreated lastID email "password123"))
    | Rejected message =>
        if includes message "UNIQUE constraint failed"
        then Respond (json 400 (Error "Email already exists"))
        else Respond (json 500 (Error "Error creating user"))
    end).

End Users.

(** ** Running handlers *)

(** The conditions of the statements of one request, in the order it
    issues them. *)
Definition io := nat -> tick.

Definition calm (t : Z) : io := fun _ => mkTick t false.

(** A request served alone: every awaited statement executes before any
    other request touches the database. *)
Fixpoint run (h : handler) (e : io) (d : database) : database * response :=
  match h with
  | Respond r => (d, r)
  | Await q k =>
      let (d', o) := exec q (e 0%nat) d in
      run (k o) (fun n => e (S n)) d'
  end.

(** One turn of the event loop for a request: its pending statement
    executes and the handler runs up to its next [await]. *)
Definition resume (h : handler) (t : tick) (d : database)
  : database * handler :=
  match h with
  | Respond r => (d, h)
  | Await q k => let (d', o) := exec q t d in (d', k o)
  end.

(** Requests in flight, and a schedule: which request is resumed next and
    under which conditions. *)
Fixpoint resume_nth (n : nat) (hs : list handler) (t : tick) (d : database)
  : database * list handler :=
  match hs, n with
  | [], _ => (d, [])
  | h :: hs', O => let (d', h') := resume h t d in (d', h' :: hs')
  | h :: hs', S n' =>
      let (d', hs'') := resume_nth n' hs' t d in (d', h :: hs'')
  end.

Fixpoint run_schedule (s : list (nat * tick)) (hs : list handler)
  (d : database) : database * list handler :=
  match s with
  | [] => (d, hs)
  | (n, t) :: s' =>
      let (d', hs') := resume_nth n hs t d in run_schedule s' hs' d'
  end.

Definition answer (h : handler) : option response :=
  match h with Respond r => Some r | Await _ _ => None end.

(** ** The requests of the service, served one after the other *)

Inductive request :=
| ListKeys
| CreateKey (identifier : string)
| Assign (keyId assignedTo : field) (actor : Z)
| Return (keyId : field)
| GetHistory (keyId : field)
| CreateUser (email : string) (valid : bool) (hashedPassword : string).

Definition handle (r : request) : handler :=
  match r with
  | ListKeys => Keys.list_keys
  | CreateKey identifier => Keys.create_key identifier
  | Assign keyId assignedTo actor => Keys.assign keyId assignedTo actor
  | Return keyId => Keys.return_key keyId
  | GetHistory keyId => Keys.history keyId
  | CreateUser email valid hashed => Users.create_user email valid hashed
  end.

Definition serve (d : database) (r : request * io) : database :=
  fst (run (handle (fst r)) (snd r) d).

Definition serve_all (rs : list (request * io)) (d : database) : database :=
  fold_left serve rs d.

Definition reachable (d : database) : Prop :=
  exists rs, serve_all rs db_init = d.

(** ** The ledger's vocabulary *)

(** The open assignments of key [k]. *)
Definition open_rows (d : database) (k : Z) : list assignment :=
  filter (open_for (IntField k)) (key_assignments d).

(** The single-holder rule. *)
Definition single_holder (d : database) : Prop :=
  forall k, (length (open_rows d k) <= 1)%nat.

(** AUTOINCREMENT has handed out every id in the table. *)
Definition ids_bounded (d : database) : Prop :=
  Forall (fun r => id r <= key_assignments_seq d) (key_assignments d).

(** The key registry knows [k] as an active key. *)
Definition references_active_key (d : database) (k : Z) : bool :=
  existsb (fun x => (k_id x =? k) && k_isActive x) (keys d).

(** The row [r] after a return at time [t] that concerned it. *)
Definition closed_at (t : Z) (r : assignment) : assignment :=
  mkAssignment (id r) (keyId r) (assignedTo r) (assignedBy r)
               (assignedAt r) (Some t).

(** What [UPDATE ... WHERE keyId = k AND returnedAt IS NULL] may do to a
    row: close it when it is an open row of [k], and nothing otherwise. *)
Definition returned (k : Z) (t : Z) (r r' : assignment) : Prop :=
  if open_for (IntField k) r then r' = closed_at t r else r' = r.

(** Orders on history rows: by [assignedAt] alone, and with the id as
    tie-break. *)
Definition not_older (x y : history_row) : Prop :=
  assignedAt (ka x) >= assignedAt (ka y).

Definition newer_or_later_id (x y : history_row) : Prop :=
  assignedAt (ka x) > assignedAt (ka y) \/
  (assignedAt (ka x) = assignedAt (ka y) /\ id (ka x) > id (ka y)).

(** [u] is the users row that [JOIN users ON uid = u.id] pairs with. *)
Definition user_with (d : database) (uid : Z) (email : string) : Prop :=
  exists u, In u (users d) /\ u_id u = uid /\ u_email u = email.

(** Both joins of the history query find a users row for [r]. *)
Definition joins_users (d : database) (r : assignment) : bool :=
  existsb (fun u => u_id u =? assignedTo r) (users d) &&
  existsb (fun u => u_id u =? assignedBy r) (users d).

(** The row that an [assign] inserts at time [t]. *)
Definition new_assignment (d : database) (k a b t : Z) : assignment :=
  mkAssignment (key_assignments_seq d + 1) k a b t None.

(** A ledger for the examples: user 1 and key 1 are created; user 1 takes
    key 1, returns it and takes it again within the same second, returns it
    a second later, and then assigns it to user 99, who does not exist. *)
Definition ledger_example : database :=
  serve_all
    [(CreateUser "a@b.co" true "$2a$10$h", calm 10);
     (CreateKey "K-100", calm 11);
     (Assign (IntField 1) (IntField 1) 1, calm 100);
     (Return (IntField 1), calm 100);
     (Assign (IntField 1) (IntField 1) 1, calm 100);
     (Return (IntField 1), calm 101);
     (Assign (IntField 1) (IntField 99) 1, calm 102)]
    db_init.

(** ** The routes of [routes/users.js] and [routes/auth.js] *)

(** A row of [SELECT id, email, isActive, createdAt, updatedAt FROM users]. *)
Record user_view := mkUserView {
  v_id : Z;
  v_email : string;
  v_isActive : bool;
  v_createdAt : Z;
  v_updatedAt : Z
}.

Definition view (u : user) : user_view :=
  mkUserView (u_id u) (u_email u) (u_isActive u) (u_createdAt u)
             (u_updatedAt u).

(** The statements these routes issue.  [UpdateUser email isActive id] is
    [UPDATE users SET ... , updatedAt = CURRENT_TIMESTAMP WHERE id = ?],
    with [email = ?] and [isActive = ?] among the assignments when the
    handler pushed them. *)
Inductive account_stmt : Type -> Type :=
| SelectUsers : account_stmt (list user_view)
| UpdateUser (email : option string) (isActive : option bool) (uid : field)
  : account_stmt unit
| DeactivateUser (uid : field) : account_stmt unit
| SelectActiveUserByEmail (email : string) : account_stmt (option user).

(** The assignments of an UPDATE applied to one row. *)
Definition set_user_fields (email : option string) (isActive : option bool)
  (t : Z) (u : user) : user :=
  mkUser (u_id u)
         (match email with Some e => e | None => u_email u end)
         (u_password u)
         (match isActive with Some b => b | None => u_isActive u end)
         (u_createdAt u) t.

(** [UPDATE users SET ... WHERE id = ?] over the table. *)
Definition update_rows (email : option string) (isActive : option bool)
  (uid : field) (t : Z) (l : list user) : list user :=
  map (fun u => if col_eq (u_id u) uid
                then set_user_fields email isActive t u else u) l.

(** The UNIQUE constraint on [users.email] under an UPDATE: it fails when
    a row is given an email that a row the UPDATE leaves alone carries. *)
Definition email_taken (email : option string) (uid : field)
  (l : list user) : bool :=
  match email with
  | Some e =>
      existsb (fun u => col_eq (u_id u) uid) l &&
      existsb (fun u => negb (col_eq (u_id u) uid) && String.eqb (u_email u) e)
              l
  | None => false
  end.

(** [WHERE email = ? AND isActive = 1] *)
Definition active_with_email (email : string) (u : user) : bool :=
  String.eqb (u_email u) email && u_isActive u.

Definition account_exec {A : Type} (q : account_stmt A) (t : tick)
  (d : database) : database * outcome A :=
  if fault t then (d, Rejected io_error) else
  match q in account_stmt T return database * outcome T with
  | SelectUsers => (d, Resolved (map view (users d)))
  | UpdateUser email isActive uid =>
      if email_taken email uid (users d)
      then (d, Rejected (unique_failed "users.email"))
      else (set_users d (update_rows email isActive uid (now t) (users d))
                      (users_seq d),
            Resolved tt)
  | DeactivateUser uid =>
      (set_users d (update_rows None (Some false) uid (now t) (users d))
                 (users_seq d),
       Resolved tt)
  | SelectActiveUserByEmail email =>
      (d, Resolved (find (active_with_email email) (users d)))
  end.

Inductive account_body :=
| AErrors                             (* { errors: errors.array() } *)
| AError (msg : string)               (* { error: msg } *)
| AMessage (msg : string)             (* { message: msg } *)
| UserList (rows : list user_view)
| Session (token : string) (uid : Z) (email : string).
                                      (* { token, user: { id, email } } *)

Record account_response := ajson { a_status : Z; a_payload : account_body }.

Inductive account_handler : Type :=
| ARespond (r : account_response)
| AAwait {A : Type} (q : account_stmt A) (k : outcome A -> account_handler).

Fixpoint account_run (h : account_handler) (e : io) (d : database)
  : database * account_response :=
  match h with
  | ARespond r => (d, r)
  | AAwait q k =>
      let (d', o) := account_exec q (e 0%nat) d in
      account_run (k o) (fun n => e (S n)) d'
  end.

(** [if (email)]: the email that the handler pushes among the updates. *)
Definition pushed (email : option string) : option string :=
  match email with
  | Some e => if String.eqb e EmptyString then None else Some e
  | None => None
  end.

Module Accounts.

(** [router.get("/")] of [routes/users.js] *)
Definition list_users : account_handler :=
  AAwait SelectUsers (fun o =>
    match o with
    | Resolved rows => ARespond (ajson 200 (UserList rows))
    | Rejected _ => ARespond (ajson 500 (AError "Error fetching users"))
    end).

(** [router.put("/:id", body("email").isEmail().optional(),
    body("isActive").isBoolean().optional(), ...)].  [uid] is
    [req.params.id]; [email] is [req.body.email] when it is defined and
    [valid] the verdict of [isEmail] on it; [isActive] is
    [req.body.isActive] when it is defined: a JSON boolean, which is bound
    as 1 or 0, or one of the strings "1" and "0", which the column reads as
    these numbers.  (The strings "true" and "false" also pass [isBoolean];
    SQLite would store them as text, which [u_isActive] cannot hold, and
    they are not among the inputs of this definition.) *)
Definition update_user (uid : field) (email : option string) (valid : bool)
  (isActive : option bool) : account_handler :=
  if match email with Some _ => negb valid | None => false end
  then ARespond (ajson 400 AErrors) else
  match pushed email, isActive with
  | None, None => ARespond (ajson 400 (AError "No valid updates provided"))
  | _, _ =>
      AAwait (UpdateUser (pushed email) isActive uid) (fun o =>
        match o with
        | Resolved _ =>
            ARespond (ajson 200 (AMessage "User updated successfully"))
        | Rejected _ => ARespond (ajson 500 (AError "Error updating user"))
        end)
  end.

(** [router.delete("/:id")] *)
Definition deactivate_user (uid : field) : account_handler :=
  AAwait (DeactivateUser uid) (fun o =>
    match o with
    | Resolved _ =>
        ARespond (ajson 200 (AMessage "User deactivated successfully"))
    | Rejected _ => ARespond (ajson 500 (AError "Error deactivating user"))
    end).

End Accounts.

Module Auth.

(** [router.post("/login", body("email").isEmail(),
    body("password").notEmpty(), ...)] of [routes/auth.js].  [valid] is
    the verdict of [isEmail] on [email].  [compare password hash] is
    [bcrypt.compare], and [sign uid email] is [jwt.sign({ id, email },
    JWT_SECRET, { expiresIn: "24h" })], both from libraries. *)
Definition login (compare : string -> string -> bool)
  (sign : Z -> string -> string)
  (email : string) (valid : bool) (password : string) : account_handler :=
  if negb valid || String.eqb password EmptyString
  then ARespond (ajson 400 AErrors) else
  AAwait (SelectActiveUserByEmail email) (fun o =>
    match o with
    | Resolved None => ARespond (ajson 401 (AError "Invalid credentials"))
    | Resolved (Some user) =>
        if negb (compare password (u_password user))
        then ARespond (ajson 401 (AError "Invalid credentials"))
        else ARespond (ajson 200 (Session (sign (u_id user) (u_email user))
                                          (u_id user) (u_email user)))
    | Rejected _ => ARespond (ajson 500 (AError "Error during login"))
    end).

End Auth.

(** ** Every route that writes, served one after the other *)

Inductive account_request :=
| ListUsers
| UpdateUserReq (uid : field) (email : option string) (valid : bool)
                (isActive : option bool)
| DeleteUser (uid : field).

Definition account_handle (r : account_request) : account_handler :=
  match r with
  | ListUsers => Accounts.list_users
  | UpdateUserReq uid email valid isActive =>
      Accounts.update_user uid email valid isActive
  | DeleteUser uid => Accounts.deactivate_user uid
  end.

(** A request to any route but [login], which only reads. *)
Inductive service_request :=
| ToKeys (r : request)
| ToAccounts (r : account_request).

Definition service_serve (d : database) (r : service_request * io)
  : database :=
  match fst r with
  | ToKeys q => serve d (q, snd r)
  | ToAccounts q => fst (account_run (account_handle q) (snd r) d)
  end.

Definition service_serve_all (rs : list (service_request * io))
  (d : database) : database :=
  fold_left service_serve rs d.

Definition service_reachable (d : database) : Prop :=
  exists rs, service_serve_all rs db_init = d.

(** ** Vocabulary for the registry, the accounts and the audit trail *)


(** The [keys] table likewise; no route retires a key. *)
Definition keys_wf (d : database) : Prop :=
  NoDup (map k_id (keys d)) /\ NoDup (map k_identifier (keys d)) /\
  Forall (fun k => k_id k <= keys_seq d) (keys d) /\
  Forall (fun k => k_isActive k = true) (keys d).

(** What later requests may do to a ledger row: nothing but close it. *)
Definition kept (r r' : assignment) : Prop :=
  id r' = id r /\ keyId r' = keyId r /\ assignedTo r' = assignedTo r /\
  assignedBy r' = assignedBy r /\ assignedAt r' = assignedAt r /\
  (forall t, returnedAt r = Some t -> returnedAt r' = Some t).

(** [l'] is [l] with rows kept in place and rows appended. *)
Definition extends (l l' : list assignment) : Prop :=
  exists l1 l2, l' = l1 ++ l2 /\ Forall2 kept l l1.

(** What later requests may do to a users row: the id, the password and
    the creation time stay. *)
Definition same_account (u u' : user) : Prop :=
  u_id u' = u_id u /\ u_password u' = u_password u /\
  u_createdAt u' = u_createdAt u.

Definition accounts_extend (l l' : list user) : Prop :=
  exists l1 l2, l' = l1 ++ l2 /\ Forall2 same_account l l1.


(** [r] is a [return] that names key [k]. *)
Definition returns_key (k : Z) (r : service_request) : bool :=
  match r with
  | ToKeys (Return kf) => col_eq k kf
  | _ => false
  end.

(** The assignments of key [k], oldest first. *)
Definition key_rows (d : database) (k : Z) : list assignment :=
  filter (fun r => keyId r =? k) (key_assignments d).

(** All the assignments of [k] but the last one are closed. *)
Definition only_last_open (d : database) (k : Z) : Prop :=
  Forall (fun r => is_open r = false) (removelast (key_rows d k)).

(** ** Lists *)

Section ListFacts.
Context {A : Type} (f : A -> bool).

Lemma find_none_filter (l : list A) :
  find f l = None <-> filter f l = [].
Proof.
  induction l as [|x l IH]; simpl.
  - tauto.
  - destruct (f x); [split; discriminate | exact IH].
Qed.

Lemma find_some_filter (l : list A) (x : A) :
  find f l = Some x -> filter f l <> [].
Proof.
  intros H E. apply find_none_filter in E. congruence.
Qed.

Lemma filter_nil_all_false (l : list A) :
  filter f l = [] -> forall x, In x l -> f x = false.
Proof.
  induction l as [|y l IH]; simpl; intros E x Hx; [tauto|].
  destruct (f y) eqn:Fy; [discriminate|].
  destruct Hx as [<-|Hx]; auto.
Qed.
End ListFacts.

(** ** Statements and the ledger *)

Lemma set_key_assignments_same (d : database) :
  set_key_assignments d (key_assignments d) (key_assignments_seq d) = d.
Proof. destruct d; reflexivity. Qed.

Lemma open_for_closed (q k : field) (t : Z) (r : assignment) :
  open_for k r = true -> open_for q (close_row k t r) = false.
Proof.
  intros H. unfold close_row. rewrite H. unfold open_for, is_open; simpl.
  apply andb_false_r.
Qed.

Lemma close_row_other (k : field) (t : Z) (r : assignment) :
  open_for k r = false -> close_row k t r = r.
Proof. intros H. unfold close_row. now rewrite H. Qed.

(** After the UPDATE no row is open for the key it names. *)
Lemma filter_open_closed (k : field) (t : Z) (l : list assignment) :
  filter (open_for k) (map (close_row k t) l) = [].
Proof.
  induction l as [|r l IH]; simpl; [reflexivity|].
  destruct (open_for k r) eqn:E.
  - now rewrite (open_for_closed k k t r E).
  - now rewrite (close_row_other k t r E), E.
Qed.


Lemma map_close_no_open (k : field) (t : Z) (l : list assignment) :
  filter (open_for k) l = [] -> map (close_row k t) l = l.
Proof.
  intros E. rewrite <- (map_id l) at 2. apply map_ext_in.
  intros r Hr. apply close_row_other.
  exact (filter_nil_all_false _ l E r Hr).
Qed.

(** ** The handlers, request by request *)

Lemma run_assign (d : database) (k a b : Z) (e : io) :
  run (Keys.assign (IntField k) (IntField a) b) e d =
  if fault (e 0%nat) then (d, json 500 (Error "Error assigning key")) else
  match find (open_for (IntField k)) (key_assignments d) with
  | Some _ => (d, json 400 (Error "Key is already assigned"))
  | None =>
      if fault (e 1%nat) then (d, json 500 (Error "Error assigning key"))
      else
        (set_key_assignments d
           (key_assignments d ++ [new_assignment d k a b (now (e 1%nat))])
           (key_assignments_seq d + 1),
         json 201 (Id (key_assignments_seq d + 1)))
  end.
Proof.
  unfold Keys.assign; simpl; unfold exec.
  destruct (fault (e 0%nat)); simpl; [reflexivity|].
  destruct (find _ _); simpl; [reflexivity|]. unfold exec.
  destruct (fault (e 1%nat)); reflexivity.
Qed.

Lemma run_assign_invalid (d : database) (kf af : field) (b : Z) (e : io) :
  isInt kf && isInt af = false ->
  run (Keys.assign kf af b) e d = (d, json 400 Errors).
Proof. destruct kf, af; simpl; intros H; congruence. Qed.

Lemma run_return_key (d : database) (kf : field) (e : io) :
  run (Keys.return_key kf) e d =
  if fault (e 0%nat) then (d, json 500 (Error "Error returning key")) else
  (set_key_assignments d
     (map (close_row kf (now (e 0%nat))) (key_assignments d))
     (key_assignments_seq d),
   json 200 (Message "Key returned successfully")).
Proof.
  unfold Keys.return_key; simpl; unfold exec.
  destruct (fault (e 0%nat)); reflexivity.
Qed.

Lemma run_history (d : database) (kf : field) (e : io) :
  run (Keys.history kf) e d =
  if fault (e 0%nat)
  then (d, json 500 (Error "Error fetching key history"))
  else (d, json 200 (History (order_by_assignedAt_desc (history_join d kf)))).
Proof.
  unfold Keys.history; simpl; unfold exec.
  destruct (fault (e 0%nat)); reflexivity.
Qed.

(** A request that runs alone is the same as one resumed turn after turn. *)
Lemma run_resume (h : handler) (e : io) (d : database) :
  run h e d =
  match h with
  | Respond r => (d, r)
  | Await _ _ =>
      run (snd (resume h (e 0%nat) d)) (fun n => e (S n))
          (fst (resume h (e 0%nat) d))
  end.
Proof.
  destruct h as [r|A q k]; simpl; [reflexivity|].
  destruct (exec q (e 0%nat) d); reflexivity.
Qed.

(** Only [assign] and [return] write the ledger. *)
Lemma serve_ledger (d : database) (r : request) (e : io) :
  match r with
  | Assign _ _ _ | Return _ => True
  | _ => key_assignments (serve d (r, e)) = key_assignments d
         /\ key_assignments_seq (serve d (r, e)) = key_assignments_seq d
  end.
Proof.
  destruct r; unfold serve, handle, fst, snd; auto.
  - unfold Keys.list_keys; simpl; unfold exec.
    destruct (fault (e 0%nat)); simpl; auto.
  - unfold Keys.create_key.
    destruct (String.eqb identifier EmptyString); simpl; auto.
    unfold exec. destruct (fault (e 0%nat)); simpl; auto.
    destruct (existsb _ (keys d)); simpl; auto.
  - rewrite run_history. destruct (fault (e 0%nat)); simpl; auto.
  - unfold Users.create_user.
    destruct valid; simpl; auto.
    unfold exec. destruct (fault (e 0%nat)); simpl; auto.
    destruct (existsb _ (users d)); simpl; auto.
Qed.

(** ** The single-holder rule under requests served one at a time *)







(** ** AUTOINCREMENT ids *)

Lemma serve_ids_bounded (d : database) (r : request * io) :
  ids_bounded d -> ids_bounded (serve d r).
Proof.
  destruct r as [r e]. unfold ids_bounded. intros H.
  pose proof (serve_ledger d r e) as L.
  destruct r as [| |kf af b|kf| |]; unfold serve in *; cbn [fst snd handle] in *.
  1, 2, 5, 6: destruct L as [L1 L2]; rewrite L1, L2; exact H.
  - destruct kf as [k|]; [destruct af as [a|]|];
      try (rewrite run_assign_invalid by reflexivity; exact H).
    rewrite run_assign.
    destruct (fault (e 0%nat)); [exact H|].
    destruct (find _ _); [exact H|].
    destruct (fault (e 1%nat)); [exact H|]. simpl.
    apply Forall_app; split.
    + eapply Forall_impl; [|exact H]. simpl; intros; lia.
    + constructor; [simpl; lia | constructor].
  - rewrite run_return_key.
    destruct (fault (e 0%nat)); [exact H|]. simpl.
    apply Forall_map. eapply Forall_impl; [|exact H].
    intros r Hr. unfold close_row. destruct (open_for _ _); exact Hr.
Qed.

Lemma reachable_ids_bounded (d : database) :
  reachable d -> ids_bounded d.
Proof.
  intros [rs <-].
  assert (G : forall d0, ids_bounded d0 -> ids_bounded (serve_all rs d0)).
  { induction rs as [|r rs IH]; intros d0 H; simpl; [exact H|].
    apply IH, serve_ids_bounded, H. }
  apply G. constructor.
Qed.

(** ** Two [assign] requests in flight *)

(** X9: whatever the key and the database, as long as the key has no open
    row: when both SELECTs execute before either INSERT, both requests
    insert and both answer 201, and the key has two open rows. *)
Lemma check_then_insert_race
  (d : database) (k a1 a2 b1 b2 : Z) (t1 t2 t3 t4 : Z) :
  open_rows d k = [] ->
  let s := [(0%nat, mkTick t1 false); (1%nat, mkTick t2 false);
            (0%nat, mkTick t3 false); (1%nat, mkTick t4 false)] in
  let hs := [Keys.assign (IntField k) (IntField a1) b1;
             Keys.assign (IntField k) (IntField a2) b2] in
  map answer (snd (run_schedule s hs d))
    = [Some (json 201 (Id (key_assignments_seq d + 1)));
       Some (json 201 (Id (key_assignments_seq d + 1 + 1)))] /\
  open_rows (fst (run_schedule s hs d)) k
    = [mkAssignment (key_assignments_seq d + 1) k a1 b1 t3 None;
       mkAssignment (key_assignments_seq d + 1 + 1) k a2 b2 t4 None].
Proof.
  intros O. unfold open_rows in *.
  pose proof (proj2 (find_none_filter _ _) O) as F.
  cbv zeta. unfold run_schedule, resume_nth, resume, Keys.assign, exec.
  cbn [fault now fst snd]. rewrite F. cbn [fst snd map answer].
  split; [reflexivity|].
  cbn [key_assignments set_key_assignments].
  rewrite !filter_app, O. unfold open_for, is_open; simpl.
  rewrite Z.eqb_refl. reflexivity.
Qed.

(** Served one after the other, the second of two [assign] requests for a
    key is refused once the first has answered 201. *)
Lemma assign_after_assign
  (d : database) (k a1 a2 b1 b2 : Z) (e1 e2 : io) :
  let r1 := run (Keys.assign (IntField k) (IntField a1) b1) e1 d in
  status (snd r1) = 201 ->
  status (snd (run (Keys.assign (IntField k) (IntField a2) b2) e2 (fst r1)))
    <> 201.
Proof.
  cbv zeta. rewrite !run_assign.
  destruct (fault (e1 0%nat)); [discriminate|].
  destruct (find _ (key_assignments d)) eqn:F1; [discriminate|].
  destruct (fault (e1 1%nat)); [discriminate|]. intros _.
  cbn [fst snd key_assignments set_key_assignments].
  destruct (fault (e2 0%nat)); [discriminate|].
  destruct (find _ (_ ++ _)) eqn:F2; [discriminate|].
  apply find_none_filter in F2. rewrite filter_app in F2.
  apply app_eq_nil in F2. destruct F2 as [_ F2].
  unfold open_for, is_open in F2; simpl in F2.
  rewrite Z.eqb_refl in F2. discriminate.
Qed.

(** ** Claims *)




(** C2: Atomicity of check and insert.  The handler awaits the SELECT and
    then the INSERT as two statements, and nothing ties them together: two
    [assign] requests for the same key whose SELECTs both run before either
    INSERT both answer 201, and the key ends with two open assignments.
    Served one after the other, the second request is refused. *)
Theorem assign_race :
  let a1 := Keys.assign (IntField 1) (IntField 7) 1 in
  let a2 := Keys.assign (IntField 1) (IntField 8) 1 in
  let t := mkTick 100 false in
  let interleaved :=
    run_schedule [(0%nat, t); (1%nat, t); (0%nat, t); (1%nat, t)]
                 [a1; a2] db_init in
  map answer (snd interleaved)
    = [Some (json 201 (Id 1)); Some (json 201 (Id 2))]
  /\ open_rows (fst interleaved) 1
    = [mkAssignment 1 1 7 1 100 None; mkAssignment 2 1 8 1 100 None]
  /\ ~ single_holder (fst interleaved)
  /\ snd (run a2 (calm 100) (fst (run a1 (calm 100) db_init)))
    = json 400 (Error "Key is already assigned").
Proof.
  repeat split; try reflexivity.
  intros H. specialize (H 1). vm_compute in H. lia.
Qed.

(** C3 (counterexample): On the fresh database, where no key exists at
    all, assigning key 42 answers 201 and not 404. *)
Lemma assign_unknown_key_counterexample :
  references_active_key db_init 42 = false /\
  snd (run (Keys.assign (IntField 42) (IntField 7) 1) (calm 100) db_init)
    = json 201 (Id 1) /\
  status (snd (run (Keys.assign (IntField 42) (IntField 7) 1) (calm 100)
                   db_init)) <> 404.
Proof. repeat split. discriminate. Qed.

(** [assign] gives the same answer and the same ledger whatever the [keys]
    table holds, and its status is 201, 400 or 500. *)
Lemma assign_whatever_keys
  (d : database) (ks : list key) (s : Z) (kf af : field) (b : Z) (e : io) :
  let r := run (Keys.assign kf af b) e d in
  let r' := run (Keys.assign kf af b) e (set_keys d ks s) in
  snd r' = snd r /\
  key_assignments (fst r') = key_assignments (fst r) /\
  (status (snd r) = 201 \/ status (snd r) = 400 \/ status (snd r) = 500).
Proof.
  destruct kf as [k|]; [destruct af as [a|]|]; cbv zeta;
    try (rewrite !run_assign_invalid by reflexivity; simpl; auto).
  rewrite !run_assign. simpl.
  destruct (fault (e 0%nat)); simpl; auto.
  destruct (find _ _); simpl; auto.
  destruct (fault (e 1%nat)); simpl; auto.
Qed.

(** C3 (amended): [assign] never consults the key registry and has no 404
    answer.  For a key id that references no existing, active key, a
    request that passes validation and that the storage layer does not fail
    is served like any other: 400 "Key is already assigned" when the key id
    has an open row, otherwise the row is inserted and the answer is 201;
    and whatever the request and the [keys] table, the answer and the
    ledger are the same, with a status other than 404. *)
Theorem assign_ignores_key_registry (d : database) (k a b : Z) (e : io) :
  references_active_key d k = false ->
  fault (e 0%nat) = false -> fault (e 1%nat) = false ->
  let r := run (Keys.assign (IntField k) (IntField a) b) e d in
  (open_rows d k <> [] ->
   snd r = json 400 (Error "Key is already assigned")) /\
  (open_rows d k = [] ->
   snd r = json 201 (Id (key_assignments_seq d + 1)) /\
   In (new_assignment d k a b (now (e 1%nat))) (key_assignments (fst r))) /\
  (forall ks s kf af b' e',
     let r0 := run (Keys.assign kf af b') e' d in
     let r' := run (Keys.assign kf af b') e' (set_keys d ks s) in
     snd r' = snd r0 /\
     key_assignments (fst r') = key_assignments (fst r0) /\
     status (snd r0) <> 404).
Proof.
  intros _ F0 F1. cbv zeta. rewrite run_assign, F0. unfold open_rows.
  destruct (find _ _) eqn:F.
  - apply find_some_filter in F. repeat split; try tauto.
    + apply (assign_whatever_keys d ks s kf af b' e').
    + apply (assign_whatever_keys d ks s kf af b' e').
    + destruct (assign_whatever_keys d ks s kf af b' e') as [_ [_ S]].
      cbv zeta in S. lia.
  - rewrite F1. apply find_none_filter in F. repeat split; try tauto.
    + simpl. apply in_or_app; right; left; reflexivity.
    + apply (assign_whatever_keys d ks s kf af b' e').
    + apply (assign_whatever_keys d ks s kf af b' e').
    + destruct (assign_whatever_keys d ks s kf af b' e') as [_ [_ S]].
      cbv zeta in S. lia.
Qed.

Lemma assign_ignores_key_registry_witness :
  let d := db_init in
  let e := calm 100 in
  let r := run (Keys.assign (IntField 42) (IntField 7) 1) e d in
  (open_rows d 42 <> [] ->
   snd r = json 400 (Error "Key is already assigned")) /\
  (open_rows d 42 = [] ->
   snd r = json 201 (Id (key_assignments_seq d + 1)) /\
   In (new_assignment d 42 7 1 (now (e 1%nat))) (key_assignments (fst r))) /\
  (forall ks s kf af b' e',
     let r0 := run (Keys.assign kf af b') e' d in
     let r' := run (Keys.assign kf af b') e' (set_keys d ks s) in
     snd r' = snd r0 /\
     key_assignments (fst r') = key_assignments (fst r0) /\
     status (snd r0) <> 404).
Proof.
  apply (assign_ignores_key_registry db_init 42 7 1 (calm 100));
    reflexivity.
Defined.

(** C4: For a request that passes validation and statements the storage
    layer does not fail: [assign] answers 400 "Key is already assigned"
    exactly when the key has an open assignment, and then changes nothing;
    otherwise it appends exactly one row, open, with the requested holder
    and the authenticated actor, and answers 201 with that row's id, an id
    no earlier row of a reachable database carries. *)
Theorem assign_spec (d : database) (k a b : Z) (e : io) :
  fault (e 0%nat) = false -> fault (e 1%nat) = false ->
  let r := run (Keys.assign (IntField k) (IntField a) b) e d in
  (snd r = json 400 (Error "Key is already assigned")
   <-> open_rows d k <> []) /\
  (open_rows d k <> [] -> fst r = d) /\
  (open_rows d k = [] ->
   snd r = json 201 (Id (key_assignments_seq d + 1)) /\
   key_assignments (fst r) =
     key_assignments d ++
     [mkAssignment (key_assignments_seq d + 1) k a b (now (e 1%nat)) None] /\
   users (fst r) = users d /\ keys (fst r) = keys d /\
   (reachable d ->
    ~ In (key_assignments_seq d + 1) (map id (key_assignments d)))).
Proof.
  intros F0 F1. cbv zeta. rewrite run_assign, F0.
  unfold open_rows.
  destruct (find _ _) eqn:F.
  - apply find_some_filter in F. simpl.
    repeat split; auto; try congruence.
  - rewrite F1. apply find_none_filter in F. simpl.
    split; [split; [discriminate | congruence]|].
    split; [congruence|]. intros _. repeat split.
    intros R I. apply reachable_ids_bounded in R.
    apply in_map_iff in I. destruct I as [r [E I]].
    unfold ids_bounded in R. rewrite Forall_forall in R.
    specialize (R r I). lia.
Qed.

Lemma assign_spec_witness :
  let r := run (Keys.assign (IntField 1) (IntField 7) 1) (calm 100) db_init in
  (snd r = json 400 (Error "Key is already assigned")
   <-> open_rows db_init 1 <> []) /\
  (open_rows db_init 1 <> [] -> fst r = db_init) /\
  (open_rows db_init 1 = [] ->
   snd r = json 201 (Id (key_assignments_seq db_init + 1)) /\
   key_assignments (fst r) =
     key_assignments db_init ++
     [mkAssignment (key_assignments_seq db_init + 1) 1 7 1
                   (now (calm 100 1%nat)) None] /\
   users (fst r) = users db_init /\ keys (fst r) = keys db_init /\
   (reachable db_init ->
    ~ In (key_assignments_seq db_init + 1)
         (map id (key_assignments db_init)))).
Proof. apply (assign_spec db_init 1 7 1 (calm 100)); reflexivity. Defined.

Lemma returned_close_rows (k t : Z) (l : list assignment) :
  Forall2 (returned k t) l (map (close_row (IntField k) t) l).
Proof.
  induction l as [|r l IH]; simpl; constructor; [|exact IH].
  unfold returned, close_row, closed_at.
  destruct (open_for (IntField k) r); reflexivity.
Qed.

(** C5: When the storage layer does not fail the UPDATE, [return] answers
    200; it keeps every row in place and changes at most the [returnedAt]
    of the key's open rows, which it sets to the current time; with no open
    row for the key the database is left exactly as it was. *)
Theorem return_spec (d : database) (k : Z) (e : io) :
  fault (e 0%nat) = false ->
  let r := run (Keys.return_key (IntField k)) e d in
  snd r = json 200 (Message "Key returned successfully") /\
  (open_rows d k = [] -> fst r = d) /\
  Forall2 (returned k (now (e 0%nat)))
          (key_assignments d) (key_assignments (fst r)) /\
  (forall row, In row (open_rows d k) ->
     In (closed_at (now (e 0%nat)) row) (key_assignments (fst r)) /\
     is_open (closed_at (now (e 0%nat)) row) = false).
Proof.
  intros F0. cbv zeta. rewrite run_return_key, F0. simpl.
  split; [reflexivity|]. split; [|split].
  - intros E. unfold open_rows in E.
    rewrite (map_close_no_open _ _ _ E). apply set_key_assignments_same.
  - apply returned_close_rows.
  - intros row Hrow. unfold open_rows in Hrow.
    apply filter_In in Hrow. destruct Hrow as [I O].
    split; [|reflexivity].
    apply in_map_iff. exists row. split; [|exact I].
    unfold close_row. now rewrite O.
Qed.

Lemma return_spec_witness :
  let d := serve_all [(Assign (IntField 1) (IntField 7) 1, calm 100)] db_init in
  let r := run (Keys.return_key (IntField 1)) (calm 160) d in
  snd r = json 200 (Message "Key returned successfully") /\
  (open_rows d 1 = [] -> fst r = d) /\
  Forall2 (returned 1 (now (calm 160 0%nat)))
          (key_assignments d) (key_assignments (fst r)) /\
  (forall row, In row (open_rows d 1) ->
     In (closed_at (now (calm 160 0%nat)) row) (key_assignments (fst r)) /\
     is_open (closed_at (now (calm 160 0%nat)) row) = false).
Proof.
  apply (return_spec
           (serve_all [(Assign (IntField 1) (IntField 7) 1, calm 100)] db_init)
           1 (calm 160)).
  reflexivity.
Defined.

(** C7: An [assign] that does not answer 201 (validation errors, key
    already assigned, storage failure at the SELECT or at the INSERT)
    leaves the whole database, and so the ledger, as it was. *)
Theorem assign_failure_leaves_database
  (d : database) (kf af : field) (b : Z) (e : io) :
  status (snd (run (Keys.assign kf af b) e d)) <> 201 ->
  fst (run (Keys.assign kf af b) e d) = d.
Proof.
  destruct kf as [k|]; [destruct af as [a|]|];
    try (rewrite run_assign_invalid by reflexivity; reflexivity).
  rewrite run_assign.
  destruct (fault (e 0%nat)); [reflexivity|].
  destruct (find _ _); [reflexivity|].
  destruct (fault (e 1%nat)); [reflexivity|].
  simpl. congruence.
Qed.

Lemma assign_failure_leaves_database_witness :
  let d := serve_all [(Assign (IntField 1) (IntField 7) 1, calm 100)] db_init in
  let taken := run (Keys.assign (IntField 1) (IntField 8) 2) (calm 101) d in
  let invalid := run (Keys.assign (IntField 2) NotInt 2) (calm 101) d in
  let failed :=
    run (Keys.assign (IntField 2) (IntField 8) 2)
        (fun n => mkTick 101 (Nat.eqb n 1)) d in
  (snd taken = json 400 (Error "Key is already assigned") /\ fst taken = d) /\
  (snd invalid = json 400 Errors /\ fst invalid = d) /\
  (snd failed = json 500 (Error "Error assigning key") /\ fst failed = d).
Proof.
  intros d taken invalid failed.
  split; [|split]; (split; [reflexivity|]).
  - apply (assign_failure_leaves_database d (IntField 1) (IntField 8) 2
                                          (calm 101)).
    discriminate.
  - apply (assign_failure_leaves_database d (IntField 2) NotInt 2
                                          (calm 101)).
    discriminate.
  - apply (assign_failure_leaves_database d (IntField 2) (IntField 8) 2
             (fun n => mkTick 101 (Nat.eqb n 1))).
    discriminate.
Defined.

(** C8: [return] leaves the key registry alone: the [keys] table and its
    counter, and the [users] table too, are the same before and after, for
    any key id, at any time, whether or not the UPDATE fails. *)
Theorem return_frames_key_registry (d : database) (kf : field) (e : io) :
  let d' := fst (run (Keys.return_key kf) e d) in
  keys d' = keys d /\ keys_seq d' = keys_seq d /\
  users d' = users d /\ users_seq d' = users_seq d.
Proof.
  cbv zeta. rewrite run_return_key.
  destruct (fault (e 0%nat)); simpl; auto.
Qed.

(** C10: A [return] whose UPDATE the storage layer does not fail closes
    every open row of the key: afterwards the key has no open row, whatever
    the database before, one that breaks the single-holder rule
    included. *)
Theorem return_closes_every_open_row (d : database) (k : Z) (e : io) :
  fault (e 0%nat) = false ->
  open_rows (fst (run (Keys.return_key (IntField k)) e d)) k = [].
Proof.
  intros F0. rewrite run_return_key, F0. unfold open_rows; simpl.
  apply filter_open_closed.
Qed.

Lemma return_closes_every_open_row_witness :
  let d := mkDatabase [] 0 [] 0
             [mkAssignment 1 1 7 1 100 None; mkAssignment 2 1 8 1 100 None;
              mkAssignment 3 2 8 1 100 None] 3 in
  length (open_rows d 1) = 2%nat /\
  open_rows (fst (run (Keys.return_key (IntField 1)) (calm 160) d)) 1 = [] /\
  key_assignments (fst (run (Keys.return_key (IntField 1)) (calm 160) d))
  = [mkAssignment 1 1 7 1 100 (Some 160); mkAssignment 2 1 8 1 100 (Some 160);
     mkAssignment 3 2 8 1 100 None].
Proof.
  intros d. split; [reflexivity|]. split; [|reflexivity].
  apply (return_closes_every_open_row d 1 (calm 160)). reflexivity.
Defined.

(** ** The history query *)

Lemma insert_desc_perm (x : history_row) (l : list history_row) :
  Permutation (insert_desc x l) (x :: l).
Proof.
  induction l as [|y l IH]; simpl; [reflexivity|].
  destruct (assignedAt (ka y) <=? assignedAt (ka x)); [reflexivity|].
  rewrite IH. apply perm_swap.
Qed.

Lemma order_by_perm (l : list history_row) :
  Permutation (order_by_assignedAt_desc l) l.
Proof.
  induction l as [|x l IH]; simpl; [reflexivity|].
  rewrite insert_desc_perm. now constructor.
Qed.

Lemma insert_desc_sorted (x : history_row) (l : list history_row) :
  StronglySorted not_older l -> StronglySorted not_older (insert_desc x l).
Proof.
  induction 1 as [|y l S IH F]; simpl; [repeat constructor|].
  destruct (assignedAt (ka y) <=? assignedAt (ka x)) eqn:C.
  - apply Z.leb_le in C. constructor; [constructor; assumption|].
    constructor; [unfold not_older; lia|].
    eapply Forall_impl; [|exact F]. unfold not_older; intros; lia.
  - apply Z.leb_gt in C. constructor; [exact IH|].
    apply (Permutation_Forall (Permutation_sym (insert_desc_perm x l))).
    constructor; [unfold not_older; lia | exact F].
Qed.

Lemma order_by_sorted (l : list history_row) :
  StronglySorted not_older (order_by_assignedAt_desc l).
Proof.
  induction l as [|x l IH]; simpl; [constructor|].
  apply insert_desc_sorted, IH.
Qed.

Lemma in_history_join (d : database) (kf : field) (h : history_row) :
  In h (history_join d kf) <->
  In (ka h) (key_assignments d) /\ col_eq (keyId (ka h)) kf = true /\
  user_with d (assignedTo (ka h)) (assignedToEmail h) /\
  user_with d (assignedBy (ka h)) (assignedByEmail h).
Proof.
  unfold history_join, user_with. rewrite in_flat_map. split.
  - intros [r [Hr H1]]. apply filter_In in Hr. destruct Hr as [Ir Kr].
    apply in_flat_map in H1. destruct H1 as [u1 [Hu1 H2]].
    apply filter_In in Hu1. destruct Hu1 as [Iu1 Eu1].
    apply in_map_iff in H2. destruct H2 as [u2 [<- Hu2]].
    apply filter_In in Hu2. destruct Hu2 as [Iu2 Eu2].
    apply Z.eqb_eq in Eu1, Eu2. simpl. eauto 10.
  - intros [Ir [Kr [[u1 [Iu1 [Eu1 M1]]] [u2 [Iu2 [Eu2 M2]]]]]].
    exists (ka h). split; [apply filter_In; auto|].
    apply in_flat_map. exists u1. split.
    + apply filter_In. split; [exact Iu1 | now apply Z.eqb_eq].
    + apply in_map_iff. exists u2. split.
      * destruct h; simpl in *. now subst.
      * apply filter_In. split; [exact Iu2 | now apply Z.eqb_eq].
Qed.

Lemma in_history (d : database) (kf : field) (h : history_row) :
  In h (order_by_assignedAt_desc (history_join d kf)) <->
  In (ka h) (key_assignments d) /\ col_eq (keyId (ka h)) kf = true /\
  user_with d (assignedTo (ka h)) (assignedToEmail h) /\
  user_with d (assignedBy (ka h)) (assignedByEmail h).
Proof.
  rewrite <- in_history_join. split; apply Permutation_in.
  - apply order_by_perm.
  - apply Permutation_sym, order_by_perm.
Qed.

Lemma filter_nil_in {A : Type} (f : A -> bool) (l : list A) :
  (forall x, In x l -> f x = false) -> filter f l = [].
Proof.
  intros H. induction l as [|x l IH]; simpl; [reflexivity|].
  rewrite (H x (or_introl eq_refl)). apply IH. intros y I. apply H. now right.
Qed.

Lemma existsb_as_filter {A : Type} (f : A -> bool) (l : list A) :
  existsb f l = match filter f l with [] => false | _ :: _ => true end.
Proof.
  induction l as [|x l IH]; simpl; [reflexivity|].
  destruct (f x); [reflexivity | exact IH].
Qed.

(** A PRIMARY KEY value selects at most one users row. *)
Lemma filter_id_le_one (l : list user) (x : Z) :
  NoDup (map u_id l) ->
  (length (filter (fun u => (u_id u =? x)%Z) l) <= 1)%nat.
Proof.
  induction l as [|u l IH]; simpl; intros N; [lia|].
  inversion N as [|? ? Hu N']; subst.
  destruct (u_id u =? x) eqn:E; [|apply IH, N'].
  rewrite filter_nil_in; [simpl; lia|].
  intros v Iv. apply Z.eqb_neq. intros Ev. apply Hu.
  apply Z.eqb_eq in E. rewrite E, <- Ev. now apply in_map.
Qed.

(** With distinct user ids the two joins yield one row for an assignment
    whose holder and actor are users, and none otherwise. *)
Lemma join_one_assignment (d : database) (r : assignment) :
  NoDup (map u_id (users d)) ->
  map ka
    (flat_map (fun u1 =>
       map (fun u2 => mkHistoryRow r (u_email u1) (u_email u2))
           (filter (fun u => u_id u =? assignedBy r) (users d)))
       (filter (fun u => u_id u =? assignedTo r) (users d)))
  = if joins_users d r then [r] else [].
Proof.
  intros N. unfold joins_users. rewrite !existsb_as_filter.
  pose proof (filter_id_le_one (users d) (assignedTo r) N) as A.
  pose proof (filter_id_le_one (users d) (assignedBy r) N) as B.
  destruct (filter (fun u => u_id u =? assignedTo r) (users d))
    as [|a [|a' la]]; simpl in A; [reflexivity| |lia].
  destruct (filter (fun u => u_id u =? assignedBy r) (users d))
    as [|b [|b' lb]]; simpl in B; [reflexivity|reflexivity|lia].
Qed.

Lemma history_join_assignments (d : database) (k : Z) :
  NoDup (map u_id (users d)) ->
  map ka (history_join d (IntField k))
  = filter (joins_users d) (key_rows d k).
Proof.
  intros N. unfold history_join, key_rows. simpl.
  induction (filter (fun r => keyId r =? k) (key_assignments d))
    as [|r l IH]; simpl; [reflexivity|].
  rewrite map_app, IH, (join_one_assignment d r N).
  destruct (joins_users d r); reflexivity.
Qed.

(** C6 (counterexample): On [ledger_example] the history of key 1 lists
    assignment 1 before assignment 2, which has the same [assignedAt] and
    the larger id, and it lists two of the key's three rows. *)
Lemma history_order_counterexample :
  reachable ledger_example /\
  exists rows,
    run (Keys.history (IntField 1)) (calm 200) ledger_example
      = (ledger_example, json 200 (History rows)) /\
    map (fun h => (id (ka h), assignedAt (ka h))) rows = [(1, 100); (2, 100)] /\
    ~ StronglySorted newer_or_later_id rows /\
    map id (filter (fun r => keyId r =? 1) (key_assignments ledger_example))
      = [1; 2; 3] /\
    ~ Permutation (map ka rows)
        (filter (fun r => keyId r =? 1) (key_assignments ledger_example)).
Proof.
  split; [eexists; reflexivity|].
  eexists. split; [reflexivity|]. split; [reflexivity|].
  split; [|split; [reflexivity|]].
  - intros S. inversion S as [|x l _ F]; subst.
    inversion F as [|y l' N _]; subst.
    unfold newer_or_later_id in N; simpl in N. lia.
  - intros P. apply Permutation_length in P. discriminate.
Qed.

(** C6 (amended): When the storage layer does not fail the query,
    [history] answers 200 and changes nothing; its rows are exactly the
    assignments of the key, open or closed, whose [assignedTo] and
    [assignedBy] each match a users row, with the emails of these users;
    they come by [assignedAt] descending; and, user ids being distinct,
    each of these assignments comes once: the assignments listed are those
    rows of the ledger, no more and no fewer. *)
Theorem history_spec (d : database) (k : Z) (e : io) :
  fault (e 0%nat) = false ->
  exists rows,
    run (Keys.history (IntField k)) e d = (d, json 200 (History rows)) /\
    (forall h, In h rows <->
       In (ka h) (key_assignments d) /\ keyId (ka h) = k /\
       user_with d (assignedTo (ka h)) (assignedToEmail h) /\
       user_with d (assignedBy (ka h)) (assignedByEmail h)) /\
    (forall r, In r (key_assignments d) -> keyId r = k ->
       (exists u, In u (users d) /\ u_id u = assignedTo r) ->
       (exists u, In u (users d) /\ u_id u = assignedBy r) ->
       In r (map ka rows)) /\
    StronglySorted not_older rows /\
    (NoDup (map u_id (users d)) ->
     Permutation (map ka rows) (filter (joins_users d) (key_rows d k))).
Proof.
  intros F0. rewrite run_history, F0. eexists. split; [reflexivity|].
  assert (M : forall h,
    In h (order_by_assignedAt_desc (history_join d (IntField k))) <->
    In (ka h) (key_assignments d) /\ keyId (ka h) = k /\
    user_with d (assignedTo (ka h)) (assignedToEmail h) /\
    user_with d (assignedBy (ka h)) (assignedByEmail h)).
  { intros h. rewrite in_history. simpl. rewrite Z.eqb_eq. reflexivity. }
  split; [exact M|]. split; [|split; [apply order_by_sorted|]].
  - intros r Ir Kr [u1 [I1 E1]] [u2 [I2 E2]].
    apply in_map_iff. exists (mkHistoryRow r (u_email u1) (u_email u2)).
    split; [reflexivity|]. apply M. simpl. unfold user_with. eauto 10.
  - intros N. rewrite <- (history_join_assignments d k N).
    apply Permutation_map, order_by_perm.
Qed.

Lemma history_spec_witness :
  NoDup (map u_id (users ledger_example)) /\
  filter (joins_users ledger_example) (key_rows ledger_example 1)
    = [mkAssignment 1 1 1 1 100 (Some 100);
       mkAssignment 2 1 1 1 100 (Some 101)] /\
  exists rows,
    run (Keys.history (IntField 1)) (calm 200) ledger_example
      = (ledger_example, json 200 (History rows)) /\
    (forall h, In h rows <->
       In (ka h) (key_assignments ledger_example) /\ keyId (ka h) = 1 /\
       user_with ledger_example (assignedTo (ka h)) (assignedToEmail h) /\
       user_with ledger_example (assignedBy (ka h)) (assignedByEmail h)) /\
    (forall r, In r (key_assignments ledger_example) -> keyId r = 1 ->
       (exists u, In u (users ledger_example) /\ u_id u = assignedTo r) ->
       (exists u, In u (users ledger_example) /\ u_id u = assignedBy r) ->
       In r (map ka rows)) /\
    StronglySorted not_older rows /\
    Permutation (map ka rows)
      (filter (joins_users ledger_example) (key_rows ledger_example 1)).
Proof.
  assert (N : NoDup (map u_id (users ledger_example))).
  { repeat constructor. simpl. tauto. }
  split; [exact N|]. split; [reflexivity|].
  destruct (history_spec ledger_example 1 (calm 200) eq_refl)
    as [rows [R [M [A [S P]]]]].
  exists rows. split; [exact R|]. split; [exact M|]. split; [exact A|].
  split; [exact S | exact (P N)].
Defined.

(** C9: The history query joins [users] twice with inner joins, and
    [assign] inserts whatever holder id it is given.  So a history never
    shows an assignment whose [assignedTo] or [assignedBy] matches no users
    row; and an [assign] to a holder id that matches no users row stores its
    row in the ledger, where the history of the key does not show it. *)
Theorem history_omits_unknown_users
  (d : database) (k a b : Z) (e e' : io) :
  fault (e 0%nat) = false -> fault (e 1%nat) = false ->
  fault (e' 0%nat) = false ->
  open_rows d k = [] ->
  (forall u, In u (users d) -> u_id u <> a) ->
  let d' := fst (run (Keys.assign (IntField k) (IntField a) b) e d) in
  let row := new_assignment d k a b (now (e 1%nat)) in
  (exists rows,
     snd (run (Keys.history (IntField k)) e' d) = json 200 (History rows) /\
     forall r, In r (key_assignments d) ->
       (forall u, In u (users d) -> u_id u <> assignedTo r) \/
       (forall u, In u (users d) -> u_id u <> assignedBy r) ->
       ~ In r (map ka rows)) /\
  snd (run (Keys.assign (IntField k) (IntField a) b) e d)
    = json 201 (Id (id row)) /\
  In row (key_assignments d') /\ keyId row = k /\ assignedTo row = a /\
  (exists rows,
     snd (run (Keys.history (IntField k)) e' d') = json 200 (History rows) /\
     ~ In row (map ka rows)).
Proof.
  intros F0 F1 F0' O U. cbv zeta.
  assert (G : forall d0 r,
    (forall u, In u (users d0) -> u_id u <> assignedTo r) \/
    (forall u, In u (users d0) -> u_id u <> assignedBy r) ->
    ~ In r (map ka (order_by_assignedAt_desc
                      (history_join d0 (IntField k))))).
  { intros d0 r N I. apply in_map_iff in I. destruct I as [h [<- I]].
    apply in_history in I.
    destruct I as [_ [_ [[u1 [I1 [E1 _]]] [u2 [I2 [E2 _]]]]]].
    destruct N as [N|N]; [apply (N u1 I1 E1) | apply (N u2 I2 E2)]. }
  split.
  { rewrite run_history, F0'. eexists. split; [reflexivity|].
    intros r _ N. apply G, N. }
  rewrite run_assign, F0. unfold open_rows in O.
  apply find_none_filter in O. rewrite O, F1. cbn [fst snd].
  split; [reflexivity|].
  split; [simpl; apply in_or_app; right; left; reflexivity|].
  split; [reflexivity|]. split; [reflexivity|].
  rewrite run_history, F0'. eexists. split; [reflexivity|].
  apply G. left. exact U.
Qed.

Lemma history_omits_unknown_users_witness :
  let d := serve_all
             [(CreateUser "a@b.co" true "$2a$10$h", calm 10);
              (CreateKey "K-100", calm 11)] db_init in
  let e := calm 100 in
  let d' := fst (run (Keys.assign (IntField 1) (IntField 99) 1) e d) in
  let row := new_assignment d 1 99 1 (now (e 1%nat)) in
  (exists rows,
     snd (run (Keys.history (IntField 1)) (calm 200) d)
       = json 200 (History rows) /\
     forall r, In r (key_assignments d) ->
       (forall u, In u (users d) -> u_id u <> assignedTo r) \/
       (forall u, In u (users d) -> u_id u <> assignedBy r) ->
       ~ In r (map ka rows)) /\
  snd (run (Keys.assign (IntField 1) (IntField 99) 1) e d)
    = json 201 (Id (id row)) /\
  In row (key_assignments d') /\ keyId row = 1 /\ assignedTo row = 99 /\
  (exists rows,
     snd (run (Keys.history (IntField 1)) (calm 200) d')
       = json 200 (History rows) /\
     ~ In row (map ka rows)).
Proof.
  intros d e.
  apply (history_omits_unknown_users d 1 99 1 e (calm 200));
    try reflexivity.
  intros u [<-|[]]. simpl. lia.
Defined.

(** * The rest of the routes *)

(** ** The handlers, request by request *)

Lemma run_list_keys (d : database) (e : io) :
  run Keys.list_keys e d =
  if fault (e 0%nat) then (d, json 500 (Error "Error fetching keys"))
  else (d, json 200 (KeyList (filter k_isActive (keys d)))).
Proof.
  unfold Keys.list_keys; simpl; unfold exec.
  destruct (fault (e 0%nat)); reflexivity.
Qed.

Lemma run_create_key (d : database) (identifier : string) (e : io) :
  run (Keys.create_key identifier) e d =
  if String.eqb identifier EmptyString then (d, json 400 Errors) else
  if fault (e 0%nat) then (d, json 500 (Error "Error creating key")) else
  if existsb (fun k => String.eqb (k_identifier k) identifier) (keys d)
  then (d, json 400 (Error "Key identifier already exists"))
  else (set_keys d
          (keys d ++ [mkKey (keys_seq d + 1) identifier true (now (e 0%nat))])
          (keys_seq d + 1),
        json 201 (IdIdentifier (keys_seq d + 1) identifier)).
Proof.
  unfold Keys.create_key.
  destruct (String.eqb identifier EmptyString); [reflexivity|].
  simpl; unfold exec.
  destruct (fault (e 0%nat)); [reflexivity|].
  destruct (existsb _ (keys d)); reflexivity.
Qed.

Lemma run_create_user (d : database) (email : string) (valid : bool)
  (hashed : string) (e : io) :
  run (Users.create_user email valid hashed) e d =
  if negb valid then (d, json 400 Errors) else
  if fault (e 0%nat) then (d, json 500 (Error "Error creating user")) else
  if existsb (fun u => String.eqb (u_email u) email) (users d)
  then (d, json 400 (Error "Email already exists"))
  else (set_users d
          (users d ++ [mkUser (users_seq d + 1) email hashed true
                              (now (e 0%nat)) (now (e 0%nat))])
          (users_seq d + 1),
        json 201 (UserCreated (users_seq d + 1) email "password123")).
Proof.
  unfold Users.create_user.
  destruct valid; [|reflexivity].
  simpl; unfold exec.
  destruct (fault (e 0%nat)); [reflexivity|].
  destruct (existsb _ (users d)); reflexivity.
Qed.

Lemma run_list_users (d : database) (e : io) :
  account_run Accounts.list_users e d =
  if fault (e 0%nat) then (d, ajson 500 (AError "Error fetching users"))
  else (d, ajson 200 (UserList (map view (users d)))).
Proof.
  unfold Accounts.list_users; simpl; unfold account_exec.
  destruct (fault (e 0%nat)); reflexivity.
Qed.

Lemma run_update_user (d : database) (uid : field) (email : option string)
  (valid : bool) (isActive : option bool) (e : io) :
  account_run (Accounts.update_user uid email valid isActive) e d =
  if match email with Some _ => negb valid | None => false end
  then (d, ajson 400 AErrors) else
  match pushed email, isActive with
  | None, None => (d, ajson 400 (AError "No valid updates provided"))
  | _, _ =>
      if fault (e 0%nat) then (d, ajson 500 (AError "Error updating user"))
      else if email_taken (pushed email) uid (users d)
      then (d, ajson 500 (AError "Error updating user"))
      else (set_users d
              (update_rows (pushed email) isActive uid (now (e 0%nat))
                           (users d))
              (users_seq d),
            ajson 200 (AMessage "User updated successfully"))
  end.
Proof.
  unfold Accounts.update_user.
  destruct (match email with Some _ => negb valid | None => false end);
    [reflexivity|].
  destruct (pushed email) as [em|]; destruct isActive as [b|];
    try reflexivity;
    cbn [account_run]; unfold account_exec;
    (destruct (fault (e 0%nat)); [reflexivity|]);
    destruct (email_taken _ _ _); reflexivity.
Qed.

Lemma run_deactivate_user (d : database) (uid : field) (e : io) :
  account_run (Accounts.deactivate_user uid) e d =
  if fault (e 0%nat) then (d, ajson 500 (AError "Error deactivating user"))
  else (set_users d
          (update_rows None (Some false) uid (now (e 0%nat)) (users d))
          (users_seq d),
        ajson 200 (AMessage "User deactivated successfully")).
Proof.
  unfold Accounts.deactivate_user; simpl; unfold account_exec.
  destruct (fault (e 0%nat)); reflexivity.
Qed.

Lemma run_login (compare : string -> string -> bool)
  (sign : Z -> string -> string) (d : database)
  (email : string) (valid : bool) (password : string) (e : io) :
  account_run (Auth.login compare sign email valid password) e d =
  if negb valid || String.eqb password EmptyString
  then (d, ajson 400 AErrors) else
  if fault (e 0%nat) then (d, ajson 500 (AError "Error during login")) else
  match find (active_with_email email) (users d) with
  | None => (d, ajson 401 (AError "Invalid credentials"))
  | Some user =>
      if negb (compare password (u_password user))
      then (d, ajson 401 (AError "Invalid credentials"))
      else (d, ajson 200 (Session (sign (u_id user) (u_email user))
                                  (u_id user) (u_email user)))
  end.
Proof.
  unfold Auth.login.
  destruct (negb valid || String.eqb password EmptyString); [reflexivity|].
  simpl; unfold account_exec.
  destruct (fault (e 0%nat)); [reflexivity|].
  destruct (find _ _) as [u|]; [|reflexivity]. simpl.
  destruct (negb (compare password (u_password u))); reflexivity.
Qed.

(** ** What one request may do to each table *)

Lemma existsb_eqb_in {A : Type} (f : A -> string) (s : string) (l : list A) :
  existsb (fun x => String.eqb (f x) s) l = true <-> In s (map f l).
Proof.
  rewrite existsb_exists, in_map_iff. split.
  - intros [x [I E]]. apply String.eqb_eq in E. eauto.
  - intros [x [E I]]. exists x. split; [exact I | now apply String.eqb_eq].
Qed.

Lemma existsb_eqb_not_in {A : Type} (f : A -> string) (s : string)
  (l : list A) :
  existsb (fun x => String.eqb (f x) s) l = false <-> ~ In s (map f l).
Proof.
  rewrite <- existsb_eqb_in. destruct (existsb _ l); split; congruence.
Qed.

(** The ledger after a request: as before, or with one open row appended
    for a key that had none, or with the open rows of one key closed. *)
Lemma service_ledger (d : database) (r : service_request * io) :
  let d' := service_serve d r in
  (key_assignments d' = key_assignments d /\
   key_assignments_seq d' = key_assignments_seq d) \/
  (exists k a b t,
     filter (open_for (IntField k)) (key_assignments d) = [] /\
     key_assignments d' = key_assignments d ++ [new_assignment d k a b t] /\
     key_assignments_seq d' = key_assignments_seq d + 1) \/
  (exists kf t,
     key_assignments d' = map (close_row kf t) (key_assignments d) /\
     key_assignments_seq d' = key_assignments_seq d).
Proof.
  destruct r as [[q|q] e]; unfold service_serve; cbn [fst snd].
  - pose proof (serve_ledger d q e) as L.
    destruct q as [| |kf af b|kf| |]; try (left; exact L);
      unfold serve; cbn [fst snd handle].
    + destruct kf as [k|]; [destruct af as [a|]|];
        try (rewrite run_assign_invalid by reflexivity; left; auto).
      rewrite run_assign.
      destruct (fault (e 0%nat)); [left; auto|].
      destruct (find _ _) eqn:F; [left; auto|].
      destruct (fault (e 1%nat)); [left; auto|].
      right; left. exists k, a, b, (now (e 1%nat)).
      apply find_none_filter in F. auto.
    + rewrite run_return_key.
      destruct (fault (e 0%nat)); [left; auto|].
      right; right. exists kf, (now (e 0%nat)). auto.
  - left. destruct q as [|uid email valid isActive|uid]; cbn [account_handle].
    + rewrite run_list_users. destruct (fault (e 0%nat)); auto.
    + rewrite run_update_user.
      destruct (match email with Some _ => negb valid | None => false end);
        [auto|].
      destruct (pushed email), isActive; auto;
        destruct (fault (e 0%nat)); auto;
        destruct (email_taken _ _ _); auto.
    + rewrite run_deactivate_user. destruct (fault (e 0%nat)); auto.
Qed.

(** The key registry after a request: as before, or with one active key of
    a new identifier appended. *)
Lemma service_keys (d : database) (r : service_request * io) :
  let d' := service_serve d r in
  (keys d' = keys d /\ keys_seq d' = keys_seq d) \/
  (exists identifier t,
     ~ In identifier (map k_identifier (keys d)) /\
     keys d' = keys d ++ [mkKey (keys_seq d + 1) identifier true t] /\
     keys_seq d' = keys_seq d + 1).
Proof.
  destruct r as [[q|q] e]; unfold service_serve; cbn [fst snd].
  - destruct q as [|identifier|kf af b|kf|kf|email valid hashed];
      unfold serve; cbn [fst snd handle].
    + rewrite run_list_keys. destruct (fault (e 0%nat)); auto.
    + rewrite run_create_key.
      destruct (String.eqb identifier EmptyString); [auto|].
      destruct (fault (e 0%nat)); [auto|].
      destruct (existsb _ _) eqn:X; [auto|].
      right. exists identifier, (now (e 0%nat)).
      apply existsb_eqb_not_in in X. auto.
    + destruct kf as [k|]; [destruct af as [a|]|];
        try (rewrite run_assign_invalid by reflexivity; auto).
      rewrite run_assign.
      destruct (fault (e 0%nat)); [auto|].
      destruct (find _ _); [auto|].
      destruct (fault (e 1%nat)); auto.
    + rewrite run_return_key. destruct (fault (e 0%nat)); auto.
    + rewrite run_history. destruct (fault (e 0%nat)); auto.
    + rewrite run_create_user. destruct (negb valid); [auto|].
      destruct (fault (e 0%nat)); [auto|].
      destruct (existsb _ _); auto.
  - left. destruct q as [|uid email valid isActive|uid]; cbn [account_handle].
    + rewrite run_list_users. destruct (fault (e 0%nat)); auto.
    + rewrite run_update_user.
      destruct (match email with Some _ => negb valid | None => false end);
        [auto|].
      destruct (pushed email), isActive; auto;
        destruct (fault (e 0%nat)); auto;
        destruct (email_taken _ _ _); auto.
    + rewrite run_deactivate_user. destruct (fault (e 0%nat)); auto.
Qed.

(** The accounts after a request: as before, or with one active user of a
    new email appended, or with the rows of one id updated under the UNIQUE
    constraint. *)
Lemma service_users (d : database) (r : service_request * io) :
  let d' := service_serve d r in
  (users d' = users d /\ users_seq d' = users_seq d) \/
  (exists email hashed t,
     ~ In email (map u_email (users d)) /\
     users d' = users d ++ [mkUser (users_seq d + 1) email hashed true t t] /\
     users_seq d' = users_seq d + 1) \/
  (exists email isActive uid t,
     email_taken email uid (users d) = false /\
     users d' = update_rows email isActive uid t (users d) /\
     users_seq d' = users_seq d).
Proof.
  destruct r as [[q|q] e]; unfold service_serve; cbn [fst snd].
  - destruct q as [|identifier|kf af b|kf|kf|email valid hashed];
      unfold serve; cbn [fst snd handle].
    + rewrite run_list_keys. destruct (fault (e 0%nat)); auto.
    + rewrite run_create_key.
      destruct (String.eqb identifier EmptyString); [auto|].
      destruct (fault (e 0%nat)); [auto|].
      destruct (existsb _ _); auto.
    + destruct kf as [k|]; [destruct af as [a|]|];
        try (rewrite run_assign_invalid by reflexivity; auto).
      rewrite run_assign.
      destruct (fault (e 0%nat)); [auto|].
      destruct (find _ _); [auto|].
      destruct (fault (e 1%nat)); auto.
    + rewrite run_return_key. destruct (fault (e 0%nat)); auto.
    + rewrite run_history. destruct (fault (e 0%nat)); auto.
    + rewrite run_create_user. destruct (negb valid); [auto|].
      destruct (fault (e 0%nat)); [auto|].
      destruct (existsb _ _) eqn:X; [auto|].
      right; left. exists email, hashed, (now (e 0%nat)).
      apply existsb_eqb_not_in in X. auto.
  - destruct q as [|uid email valid isActive|uid]; cbn [account_handle].
    + rewrite run_list_users. destruct (fault (e 0%nat)); auto.
    + rewrite run_update_user.
      destruct (match email with Some _ => negb valid | None => false end);
        [auto|].
      destruct (pushed email) as [em|], isActive as [b|]; auto;
        (destruct (fault (e 0%nat)); [auto|]);
        (destruct (email_taken _ _ _) eqn:T; [auto|]);
        right; right; eexists _, _, uid, (now (e 0%nat));
        (split; [exact T|split; reflexivity]).
    + rewrite run_deactivate_user. destruct (fault (e 0%nat)); [auto|].
      right; right. exists None, (Some false), uid, (now (e 0%nat)). auto.
Qed.

(** An invariant of the service is a property of the fresh database that
    every request keeps. *)
Lemma service_induction (P : database -> Prop) :
  (forall d r, P d -> P (service_serve d r)) ->
  forall rs d, P d -> P (service_serve_all rs d).
Proof.
  intros Step rs. induction rs as [|r rs IH]; intros d H; simpl; [exact H|].
  apply IH, Step, H.
Qed.

(** ** The key registry *)

Lemma NoDup_snoc {A : Type} (l : list A) (x : A) :
  NoDup l -> ~ In x l -> NoDup (l ++ [x]).
Proof.
  intros N H. apply (Permutation_NoDup (Permutation_cons_append l x)).
  now constructor.
Qed.

Lemma filter_all {A : Type} (f : A -> bool) (l : list A) :
  Forall (fun x => f x = true) l -> filter f l = l.
Proof.
  induction 1 as [|x l H _ IH]; simpl; [reflexivity|]. now rewrite H, IH.
Qed.

Lemma keys_wf_step (d : database) (r : service_request * io) :
  keys_wf d -> keys_wf (service_serve d r).
Proof.
  intros [Ni [Nn [B A]]].
  destruct (service_keys d r) as [[E S]|[identifier [t [N [E S]]]]];
    unfold keys_wf; rewrite E, S; [auto|].
  rewrite !map_app. simpl. repeat split.
  - apply NoDup_snoc; [exact Ni|]. intros I. apply in_map_iff in I.
    destruct I as [k [Ek Ik]]. rewrite Forall_forall in B.
    specialize (B k Ik). lia.
  - apply NoDup_snoc; assumption.
  - apply Forall_app. split.
    + eapply Forall_impl; [|exact B]. simpl; intros; lia.
    + constructor; [simpl; lia | constructor].
  - apply Forall_app. split; [exact A | repeat constructor].
Qed.

Lemma keys_wf_init : keys_wf db_init.
Proof. repeat split; constructor. Qed.

(** X1: [POST /api/keys], when the storage layer does not fail the INSERT.
    An empty identifier is refused with the validation errors, and an
    identifier that a key already carries with 400 "Key identifier already
    exists", both without any change; any other identifier is stored as one
    new active key, created now, whose new id the 201 answer carries with
    the identifier, and nothing else in the database changes. *)
Theorem create_key_spec (d : database) (identifier : string) (e : io) :
  fault (e 0%nat) = false ->
  let r := run (Keys.create_key identifier) e d in
  (identifier = EmptyString -> r = (d, json 400 Errors)) /\
  (identifier <> EmptyString ->
   In identifier (map k_identifier (keys d)) ->
   r = (d, json 400 (Error "Key identifier already exists"))) /\
  (identifier <> EmptyString ->
   ~ In identifier (map k_identifier (keys d)) ->
   snd r = json 201 (IdIdentifier (keys_seq d + 1) identifier) /\
   keys (fst r) =
     keys d ++ [mkKey (keys_seq d + 1) identifier true (now (e 0%nat))] /\
   users (fst r) = users d /\
   key_assignments (fst r) = key_assignments d).
Proof.
  intros F0. cbv zeta. rewrite run_create_key, F0.
  split; [intros ->; reflexivity|].
  split; intros N I; apply String.eqb_neq in N; rewrite N.
  - apply existsb_eqb_in in I. now rewrite I.
  - apply existsb_eqb_not_in in I. rewrite I. simpl. auto.
Qed.

Lemma create_key_spec_witness :
  let d := serve_all [(CreateKey "K-100", calm 11)] db_init in
  let r := run (Keys.create_key "K-200") (calm 12) d in
  let identifier := "K-200"%string in
  (identifier = EmptyString -> r = (d, json 400 Errors)) /\
  (identifier <> EmptyString ->
   In identifier (map k_identifier (keys d)) ->
   r = (d, json 400 (Error "Key identifier already exists"))) /\
  (identifier <> EmptyString ->
   ~ In identifier (map k_identifier (keys d)) ->
   snd r = json 201 (IdIdentifier (keys_seq d + 1) identifier) /\
   keys (fst r) =
     keys d ++ [mkKey (keys_seq d + 1) identifier true (now (calm 12 0%nat))] /\
   users (fst r) = users d /\
   key_assignments (fst r) = key_assignments d).
Proof.
  intros d r identifier.
  apply (create_key_spec d "K-200" (calm 12)). reflexivity.
Defined.

(** X2: a key that [POST /api/keys] has just created is the last one that
    [GET /api/keys] lists, after the active keys that were there. *)
Theorem created_key_is_listed
  (d : database) (identifier : string) (e e' : io) :
  fault (e 0%nat) = false -> fault (e' 0%nat) = false ->
  identifier <> EmptyString ->
  ~ In identifier (map k_identifier (keys d)) ->
  snd (run Keys.list_keys e' (fst (run (Keys.create_key identifier) e d)))
  = json 200 (KeyList (filter k_isActive (keys d) ++
                       [mkKey (keys_seq d + 1) identifier true
                              (now (e 0%nat))])).
Proof.
  intros F0 F0' N I. rewrite run_create_key, run_list_keys, F0, F0'.
  apply String.eqb_neq in N. apply existsb_eqb_not_in in I.
  rewrite N, I. simpl. now rewrite filter_app.
Qed.

Lemma created_key_is_listed_witness :
  let d := mkDatabase [] 0 [mkKey 1 "K-100" false 11; mkKey 2 "K-101" true 11]
                      2 [] 0 in
  snd (run Keys.list_keys (calm 13) (fst (run (Keys.create_key "K-200")
                                              (calm 12) d)))
  = json 200 (KeyList [mkKey 2 "K-101" true 11; mkKey 3 "K-200" true 12]).
Proof.
  intros d.
  apply (created_key_is_listed d "K-200" (calm 12) (calm 13));
    try reflexivity; [discriminate|].
  simpl. intros [H|[H|[]]]; discriminate.
Defined.

(** X3: in every database that the routes can produce from the fresh one,
    key ids are pairwise distinct and handed out by AUTOINCREMENT, key
    identifiers are pairwise distinct, and every key is active, since no
    route retires a key: [GET /api/keys] lists the whole table. *)
Theorem key_registry_invariant (d : database) (e : io) :
  service_reachable d -> fault (e 0%nat) = false ->
  keys_wf d /\ run Keys.list_keys e d = (d, json 200 (KeyList (keys d))).
Proof.
  intros [rs <-] F0.
  assert (W : keys_wf (service_serve_all rs db_init)).
  { apply (service_induction keys_wf keys_wf_step), keys_wf_init. }
  split; [exact W|].
  rewrite run_list_keys, F0. destruct W as [_ [_ [_ A]]].
  now rewrite (filter_all _ _ A).
Qed.

Lemma key_registry_invariant_witness :
  let d := service_serve_all
             [(ToKeys (CreateKey "K-100"), calm 11);
              (ToKeys (CreateKey "K-100"), calm 12);
              (ToKeys (CreateKey "K-200"), calm 13)] db_init in
  keys d = [mkKey 1 "K-100" true 11; mkKey 2 "K-200" true 13] /\
  keys_wf d /\
  run Keys.list_keys (calm 14) d = (d, json 200 (KeyList (keys d))).
Proof.
  intros d. split; [reflexivity|].
  apply (key_registry_invariant d (calm 14)); [|reflexivity].
  eexists. reflexivity.
Defined.

(** ** The ledger over time *)

Lemma set_key_assignments_twice (d : database) (l l' : list assignment)
  (s s' : Z) :
  set_key_assignments (set_key_assignments d l s) l' s'
  = set_key_assignments d l' s'.
Proof. reflexivity. Qed.

Lemma open_for_new (d : database) (k a b t : Z) :
  open_for (IntField k) (new_assignment d k a b t) = true.
Proof. unfold open_for, is_open; simpl. now rewrite Z.eqb_refl. Qed.

(** X4: assign, return, assign.  On a key with no open assignment, and
    with no statement failed by the storage layer, the three requests
    answer 201, 200 and 201 and leave two new rows at the end of the
    ledger, with consecutive ids: the first closed at the time of the
    return, the second open. *)
Theorem assign_return_assign
  (d : database) (k a1 b1 a2 b2 : Z) (e1 e2 e3 : io) :
  fault (e1 0%nat) = false -> fault (e1 1%nat) = false ->
  fault (e2 0%nat) = false ->
  fault (e3 0%nat) = false -> fault (e3 1%nat) = false ->
  open_rows d k = [] ->
  let r1 := run (Keys.assign (IntField k) (IntField a1) b1) e1 d in
  let r2 := run (Keys.return_key (IntField k)) e2 (fst r1) in
  let r3 := run (Keys.assign (IntField k) (IntField a2) b2) e3 (fst r2) in
  let s := key_assignments_seq d in
  snd r1 = json 201 (Id (s + 1)) /\
  snd r2 = json 200 (Message "Key returned successfully") /\
  snd r3 = json 201 (Id (s + 1 + 1)) /\
  key_assignments (fst r3) =
    key_assignments d ++
    [mkAssignment (s + 1) k a1 b1 (now (e1 1%nat)) (Some (now (e2 0%nat)));
     mkAssignment (s + 1 + 1) k a2 b2 (now (e3 1%nat)) None].
Proof.
  intros F10 F11 F20 F30 F31 O. cbv zeta. unfold open_rows in O.
  pose proof (proj2 (find_none_filter _ _) O) as F.
  set (s := key_assignments_seq d).
  set (c := mkAssignment (s + 1) k a1 b1 (now (e1 1%nat))
                         (Some (now (e2 0%nat)))).
  assert (E1 : run (Keys.assign (IntField k) (IntField a1) b1) e1 d =
               (set_key_assignments d
                  (key_assignments d ++
                   [new_assignment d k a1 b1 (now (e1 1%nat))]) (s + 1),
                json 201 (Id (s + 1)))).
  { rewrite run_assign, F10, F, F11. reflexivity. }
  rewrite E1. cbn [fst snd].
  assert (E2 : run (Keys.return_key (IntField k)) e2
                 (set_key_assignments d
                    (key_assignments d ++
                     [new_assignment d k a1 b1 (now (e1 1%nat))]) (s + 1)) =
               (set_key_assignments d (key_assignments d ++ [c]) (s + 1),
                json 200 (Message "Key returned successfully"))).
  { rewrite run_return_key, F20.
    cbn [key_assignments key_assignments_seq set_key_assignments].
    rewrite set_key_assignments_twice, map_app, (map_close_no_open _ _ _ O).
    cbn [map]. unfold close_row. rewrite open_for_new. reflexivity. }
  rewrite E2. cbn [fst snd].
  assert (E3 : run (Keys.assign (IntField k) (IntField a2) b2) e3
                 (set_key_assignments d (key_assignments d ++ [c]) (s + 1)) =
               (set_key_assignments d
                  ((key_assignments d ++ [c]) ++
                   [mkAssignment (s + 1 + 1) k a2 b2 (now (e3 1%nat)) None])
                  (s + 1 + 1),
                json 201 (Id (s + 1 + 1)))).
  { rewrite run_assign, F30.
    cbn [key_assignments key_assignments_seq set_key_assignments].
    assert (F' : find (open_for (IntField k)) (key_assignments d ++ [c])
                 = None).
    { apply find_none_filter. rewrite filter_app, O. simpl.
      unfold open_for, is_open; simpl. now rewrite andb_false_r. }
    rewrite F', F31. reflexivity. }
  rewrite E3. cbn [fst snd key_assignments set_key_assignments].
  repeat split. rewrite <- app_assoc. reflexivity.
Qed.

Lemma assign_return_assign_witness :
  let d := serve_all [(Assign (IntField 2) (IntField 7) 1, calm 90)] db_init in
  let r1 := run (Keys.assign (IntField 1) (IntField 7) 1) (calm 100) d in
  let r2 := run (Keys.return_key (IntField 1)) (calm 160) (fst r1) in
  let r3 := run (Keys.assign (IntField 1) (IntField 8) 1) (calm 170) (fst r2) in
  let s := key_assignments_seq d in
  snd r1 = json 201 (Id (s + 1)) /\
  snd r2 = json 200 (Message "Key returned successfully") /\
  snd r3 = json 201 (Id (s + 1 + 1)) /\
  key_assignments (fst r3) =
    key_assignments d ++
    [mkAssignment (s + 1) 1 7 1 100 (Some 160);
     mkAssignment (s + 1 + 1) 1 8 1 170 None].
Proof.
  intros d.
  apply (assign_return_assign d 1 7 1 8 1 (calm 100) (calm 160) (calm 170));
    reflexivity.
Defined.

(** X5: returning a key twice is returning it once.  After a [return]
    that the storage layer did not fail, a second [return] of the same key
    changes nothing, the time of the first return included, and answers
    200 again. *)
Theorem return_twice (d : database) (kf : field) (e1 e2 : io) :
  fault (e1 0%nat) = false -> fault (e2 0%nat) = false ->
  let d1 := fst (run (Keys.return_key kf) e1 d) in
  run (Keys.return_key kf) e2 d1
  = (d1, json 200 (Message "Key returned successfully")).
Proof.
  intros F1 F2. cbv zeta. rewrite !run_return_key, F1, F2. cbn [fst].
  cbn [key_assignments key_assignments_seq set_key_assignments].
  rewrite set_key_assignments_twice.
  now rewrite (map_close_no_open _ _ _ (filter_open_closed kf _ _)).
Qed.

Lemma return_twice_witness :
  let d := serve_all [(Assign (IntField 1) (IntField 7) 1, calm 100)] db_init in
  let d1 := fst (run (Keys.return_key (IntField 1)) (calm 160) d) in
  key_assignments d1 = [mkAssignment 1 1 7 1 100 (Some 160)] /\
  run (Keys.return_key (IntField 1)) (calm 200) d1
  = (d1, json 200 (Message "Key returned successfully")).
Proof.
  intros d. split; [reflexivity|].
  apply (return_twice d (IntField 1) (calm 160) (calm 200)); reflexivity.
Defined.

Lemma kept_refl (r : assignment) : kept r r.
Proof. unfold kept. auto 10. Qed.

Lemma kept_trans (r1 r2 r3 : assignment) :
  kept r1 r2 -> kept r2 r3 -> kept r1 r3.
Proof.
  unfold kept. intros [A1 [A2 [A3 [A4 [A5 A6]]]]] [B1 [B2 [B3 [B4 [B5 B6]]]]].
  repeat split; try congruence. intros t H. apply B6, A6, H.
Qed.

Lemma kept_close (kf : field) (t : Z) (r : assignment) :
  kept r (close_row kf t r).
Proof.
  unfold close_row. destruct (open_for kf r) eqn:O; [|apply kept_refl].
  unfold kept; simpl. repeat split.
  intros t' H. unfold open_for, is_open in O. rewrite H in O.
  now rewrite andb_false_r in O.
Qed.

Lemma Forall2_kept_refl (l : list assignment) : Forall2 kept l l.
Proof. induction l; constructor; [apply kept_refl | assumption]. Qed.

Lemma Forall2_kept_trans (l1 l2 l3 : list assignment) :
  Forall2 kept l1 l2 -> Forall2 kept l2 l3 -> Forall2 kept l1 l3.
Proof.
  intros H. revert l3. induction H as [|x y l1 l2 K _ IH]; intros l3 H3.
  - inversion H3; constructor.
  - inversion H3 as [|y' z l2' l3' K' H3']; subst.
    constructor; [eapply kept_trans; eassumption | apply IH, H3'].
Qed.

Lemma Forall2_kept_close (kf : field) (t : Z) (l : list assignment) :
  Forall2 kept l (map (close_row kf t) l).
Proof.
  induction l; simpl; constructor; [apply kept_close | assumption].
Qed.

Lemma extends_refl (l : list assignment) : extends l l.
Proof.
  exists l, []. split; [now rewrite app_nil_r | apply Forall2_kept_refl].
Qed.

Lemma extends_trans (l1 l2 l3 : list assignment) :
  extends l1 l2 -> extends l2 l3 -> extends l1 l3.
Proof.
  intros [a [b [-> Ha]]] [c [d [-> Hc]]].
  apply Forall2_app_inv_l in Hc. destruct Hc as [c1 [c2 [H1 [H2 ->]]]].
  exists c1, (c2 ++ d). split; [now rewrite app_assoc|].
  eapply Forall2_kept_trans; eassumption.
Qed.

Lemma ledger_extends_step (d : database) (r : service_request * io) :
  extends (key_assignments d) (key_assignments (service_serve d r)).
Proof.
  destruct (service_ledger d r)
    as [[E _]|[[k [a [b [t [_ [E _]]]]]]|[kf [t [E _]]]]]; rewrite E.
  - apply extends_refl.
  - eexists _, _. split; [reflexivity | apply Forall2_kept_refl].
  - exists (map (close_row kf t) (key_assignments d)), [].
    split; [now rewrite app_nil_r | apply Forall2_kept_close].
Qed.

Lemma ledger_extends_all (rs : list (service_request * io)) (d : database) :
  extends (key_assignments d) (key_assignments (service_serve_all rs d)).
Proof.
  apply (service_induction
           (fun d' => extends (key_assignments d) (key_assignments d'))).
  - intros d' r H. eapply extends_trans; [exact H|].
    apply ledger_extends_step.
  - apply extends_refl.
Qed.

Lemma extends_in (l l' : list assignment) (r : assignment) :
  extends l l' -> In r l -> exists r', In r' l' /\ kept r r'.
Proof.
  intros [l1 [l2 [-> F]]] I.
  revert r I. induction F as [|x y l l1 K _ IH]; intros r I; [destruct I|].
  destruct I as [<-|I].
  - exists y. split; [left; reflexivity | exact K].
  - destruct (IH r I) as [r' [I' K']]. exists r'. split; [|exact K'].
    right. exact I'.
Qed.

Lemma kept_closed_eq (r r' : assignment) :
  kept r r' -> is_open r = false -> r' = r.
Proof.
  intros [A1 [A2 [A3 [A4 [A5 A6]]]]] C. unfold is_open in C.
  destruct r as [i k a b t [ret|]]; [|discriminate].
  destruct r' as [i' k' a' b' t' ret']; simpl in *.
  rewrite (A6 ret eq_refl). congruence.
Qed.

(** X6: the ledger is an audit trail.  Whatever requests are served, to
    any route and in any number, every row of the ledger stays where it
    is, with its id, key, holder, actor and [assignedAt]; an open row may
    become closed and nothing else; so a closed row is still there,
    unchanged, and the ledger never gets shorter. *)
Theorem ledger_is_append_only
  (d : database) (rs : list (service_request * io)) :
  let d' := service_serve_all rs d in
  extends (key_assignments d) (key_assignments d') /\
  (length (key_assignments d) <= length (key_assignments d'))%nat /\
  (forall r, In r (key_assignments d) -> is_open r = false ->
             In r (key_assignments d')).
Proof.
  cbv zeta. pose proof (ledger_extends_all rs d) as X.
  split; [exact X|]. split.
  - destruct X as [l1 [l2 [-> F]]]. apply Forall2_length in F.
    rewrite length_app. lia.
  - intros r I C. destruct (extends_in _ _ r X I) as [r' [I' K]].
    now rewrite <- (kept_closed_eq r r' K C).
Qed.







Lemma filter_open_close_other (k : Z) (kf : field) (t : Z)
  (l : list assignment) :
  col_eq k kf = false ->
  filter (open_for (IntField k)) (map (close_row kf t) l)
  = filter (open_for (IntField k)) l.
Proof.
  intros N. induction l as [|r l IH]; simpl; [reflexivity|].
  rewrite IH. destruct (open_for kf r) eqn:O.
  - rewrite (open_for_closed (IntField k) kf t r O).
    replace (open_for (IntField k) r) with false; [reflexivity|].
    unfold open_for in *. apply andb_prop in O. destruct O as [O _].
    destruct kf as [z|]; [|discriminate]. simpl in *.
    apply Z.eqb_eq in O. rewrite O. now rewrite Z.eqb_sym, N.
  - now rewrite (close_row_other kf t r O).
Qed.

(** The routes of [routes/users.js] leave the key registry and the ledger
    alone. *)
Lemma accounts_frame (d : database) (q : account_request) (e : io) :
  let d' := fst (account_run (account_handle q) e d) in
  keys d' = keys d /\ keys_seq d' = keys_seq d /\
  key_assignments d' = key_assignments d /\
  key_assignments_seq d' = key_assignments_seq d.
Proof.
  destruct q as [|uid email valid isActive|uid]; cbn [account_handle].
  - rewrite run_list_users. destruct (fault (e 0%nat)); simpl; auto.
  - rewrite run_update_user.
    destruct (match email with Some _ => negb valid | None => false end);
      [simpl; auto|].
    destruct (pushed email), isActive; cbn [fst]; auto;
      (destruct (fault (e 0%nat)); cbn [fst]; [auto|]);
      destruct (email_taken _ _ _); cbn [fst]; auto.
  - rewrite run_deactivate_user. destruct (fault (e 0%nat)); simpl; auto.
Qed.

Lemma open_rows_step (d : database) (k : Z) (r : service_request * io) :
  returns_key k (fst r) = false ->
  open_rows d k <> [] -> open_rows (service_serve d r) k <> [].
Proof.
  intros N O. unfold open_rows in *.
  destruct r as [[q|q] e]; unfold service_serve; cbn [fst snd] in *.
  - pose proof (serve_ledger d q e) as L.
    destruct q as [| |kf af b|kf| |]; unfold serve in *;
      cbn [fst snd handle] in *.
    1, 2, 5, 6: destruct L as [L _]; rewrite L; exact O.
    + destruct kf as [k'|]; [destruct af as [a|]|];
        try (rewrite run_assign_invalid by reflexivity; exact O).
      rewrite run_assign.
      destruct (fault (e 0%nat)); [exact O|].
      destruct (find _ _); [exact O|].
      destruct (fault (e 1%nat)); [exact O|]. simpl.
      rewrite filter_app. intros H. apply app_eq_nil in H. tauto.
    + rewrite run_return_key. destruct (fault (e 0%nat)); [exact O|].
      simpl in *. now rewrite filter_open_close_other.
  - destruct (accounts_frame d q e) as [_ [_ [-> _]]]. exact O.
Qed.

(** X8: a key that is out stays out until it is returned.  From a
    database where the key has an open assignment, and after any requests
    among which none is a [return] of that key, an [assign] of the key
    never answers 201: it answers 400 "Key is already assigned" when its
    SELECT is not failed, and it changes nothing. *)
Theorem key_stays_taken
  (d : database) (k : Z) (rs : list (service_request * io))
  (a b : Z) (e : io) :
  open_rows d k <> [] ->
  forallb (fun r => negb (returns_key k (fst r))) rs = true ->
  let d' := service_serve_all rs d in
  let r := run (Keys.assign (IntField k) (IntField a) b) e d' in
  status (snd r) <> 201 /\ fst r = d' /\
  (fault (e 0%nat) = false ->
   snd r = json 400 (Error "Key is already assigned")).
Proof.
  intros O N. cbv zeta.
  assert (O' : open_rows (service_serve_all rs d) k <> []).
  { revert d O. induction rs as [|q rs IH]; intros d O; [exact O|].
    simpl in N. apply andb_prop in N. destruct N as [N1 N2].
    apply negb_true_iff in N1. simpl.
    apply (IH N2), open_rows_step; assumption. }
  rewrite run_assign. unfold open_rows in O'.
  destruct (fault (e 0%nat)); [repeat split; discriminate|].
  destruct (find _ _) eqn:F; [repeat split; discriminate|].
  apply find_none_filter in F. contradiction.
Qed.

Lemma key_stays_taken_witness :
  let d := serve_all [(Assign (IntField 1) (IntField 7) 1, calm 100)] db_init in
  let rs := [(ToKeys (Return (IntField 2)), calm 101);
             (ToKeys (Return NotInt), calm 102);
             (ToAccounts (DeleteUser (IntField 7)), calm 103);
             (ToKeys (Assign (IntField 2) (IntField 7) 1), calm 104)] in
  let d' := service_serve_all rs d in
  let r := run (Keys.assign (IntField 1) (IntField 8) 1) (calm 105) d' in
  status (snd r) <> 201 /\ fst r = d' /\
  (fault (calm 105 0%nat) = false ->
   snd r = json 400 (Error "Key is already assigned")).
Proof.
  intros d rs.
  apply (key_stays_taken d 1 rs 8 1 (calm 105)); [discriminate|reflexivity].
Defined.

Lemma check_then_insert_race_witness :
  let d := serve_all [(Assign (IntField 5) (IntField 7) 1, calm 90);
                      (Return (IntField 5), calm 95)] db_init in
  let s := [(0%nat, mkTick 100 false); (1%nat, mkTick 100 false);
            (0%nat, mkTick 101 false); (1%nat, mkTick 102 false)] in
  let hs := [Keys.assign (IntField 5) (IntField 7) 1;
             Keys.assign (IntField 5) (IntField 8) 2] in
  map answer (snd (run_schedule s hs d))
    = [Some (json 201 (Id (key_assignments_seq d + 1)));
       Some (json 201 (Id (key_assignments_seq d + 1 + 1)))] /\
  open_rows (fst (run_schedule s hs d)) 5
    = [mkAssignment (key_assignments_seq d + 1) 5 7 1 101 None;
       mkAssignment (key_assignments_seq d + 1 + 1) 5 8 2 102 None].
Proof.
  intros d.
  apply (check_then_insert_race d 5 7 8 1 2 100 100 101 102). reflexivity.
Defined.

(** ** The history over time *)

Lemma insert_desc_after (y : history_row) (a b : list history_row) :
  Forall (fun h => assignedAt (ka y) < assignedAt (ka h)) a ->
  insert_desc y (a ++ b) = a ++ insert_desc y b.
Proof.
  induction 1 as [|h a H _ IH]; simpl; [reflexivity|].
  replace (assignedAt (ka h) <=? assignedAt (ka y)) with false
    by (symmetry; apply Z.leb_gt; exact H).
  now rewrite IH.
Qed.

(** Rows scanned last and strictly newer than all the others come first. *)
Lemma order_by_newer_last (j n : list history_row) :
  (forall x y, In x n -> In y j -> assignedAt (ka y) < assignedAt (ka x)) ->
  order_by_assignedAt_desc (j ++ n)
  = order_by_assignedAt_desc n ++ order_by_assignedAt_desc j.
Proof.
  intros H. induction j as [|y j IH]; simpl; [now rewrite app_nil_r|].
  rewrite IH by (intros x z Ix Iz; apply H; [exact Ix | right; exact Iz]).
  apply insert_desc_after. rewrite Forall_forall. intros x Ix.
  apply (Permutation_in _ (order_by_perm n)) in Ix.
  apply H; [exact Ix | left; reflexivity].
Qed.

Lemma history_join_snoc (d : database) (n : assignment) (s : Z) (kf : field) :
  history_join (set_key_assignments d (key_assignments d ++ [n]) s) kf
  = history_join d kf ++
    history_join (set_key_assignments d [n] s) kf.
Proof.
  unfold history_join; simpl. rewrite filter_app, flat_map_app. reflexivity.
Qed.

Lemma history_join_one (d : database) (n : assignment) (s : Z) (kf : field)
  (h : history_row) :
  In h (history_join (set_key_assignments d [n] s) kf) -> ka h = n.
Proof.
  intros I. apply in_history_join in I. simpl in I.
  destruct I as [[E|[]] _]. now symmetry.
Qed.

(** X11: a fresh assignment heads the history.  When holder and actor
    are users, and the key's earlier assignments are all strictly older,
    the history of the key after a successful [assign] starts with the new
    row, open, and shows it with the emails of the holder and the actor. *)
Theorem new_assignment_heads_history
  (d : database) (k a b : Z) (e e' : io) (ea eb : string) :
  fault (e 0%nat) = false -> fault (e 1%nat) = false ->
  fault (e' 0%nat) = false ->
  open_rows d k = [] ->
  user_with d a ea -> user_with d b eb ->
  Forall (fun r => keyId r = k -> assignedAt r < now (e 1%nat))
         (key_assignments d) ->
  let d' := fst (run (Keys.assign (IntField k) (IntField a) b) e d) in
  let n := new_assignment d k a b (now (e 1%nat)) in
  exists h rest,
    snd (run (Keys.history (IntField k)) e' d')
      = json 200 (History (h :: rest)) /\
    ka h = n /\ returnedAt n = None /\
    In (mkHistoryRow n ea eb) (h :: rest).
Proof.
  intros F0 F1 F0' O Ua Ub Old. cbv zeta. unfold open_rows in O.
  pose proof (proj2 (find_none_filter _ _) O) as F.
  rewrite run_assign, F0, F, F1. cbn [fst].
  rewrite run_history, F0'. cbn [snd].
  set (n := new_assignment d k a b (now (e 1%nat))).
  set (s := key_assignments_seq d + 1).
  assert (I : In (mkHistoryRow n ea eb)
                 (history_join (set_key_assignments d [n] s) (IntField k))).
  { apply in_history_join. simpl. rewrite Z.eqb_refl. auto. }
  rewrite history_join_snoc, order_by_newer_last.
  - destruct (order_by_assignedAt_desc
                (history_join (set_key_assignments d [n] s) (IntField k)))
      as [|h t] eqn:E.
    + apply (Permutation_in _ (Permutation_sym (order_by_perm _))) in I.
      rewrite E in I. destruct I.
    + exists h, (t ++ order_by_assignedAt_desc (history_join d (IntField k))).
      split; [reflexivity|]. split; [|split; [reflexivity|]].
      * apply (history_join_one d n s (IntField k)).
        apply (Permutation_in _ (order_by_perm _)). rewrite E. now left.
      * rewrite app_comm_cons. apply in_or_app. left. rewrite <- E.
        apply (Permutation_in _ (Permutation_sym (order_by_perm _))), I.
  - intros x y Ix Iy. rewrite (history_join_one d n s _ x Ix).
    apply in_history_join in Iy. destruct Iy as [Iy [Ky _]].
    rewrite Forall_forall in Old. simpl in Ky. apply Z.eqb_eq in Ky.
    exact (Old (ka y) Iy Ky).
Qed.

Lemma new_assignment_heads_history_witness :
  let d := serve_all
             [(CreateUser "a@b.co" true "$2a$10$h", calm 10);
              (CreateUser "d@e.fr" true "$2a$10$i", calm 10);
              (Assign (IntField 1) (IntField 1) 1, calm 100);
              (Return (IntField 1), calm 150)] db_init in
  let e := calm 200 in
  let d' := fst (run (Keys.assign (IntField 1) (IntField 2) 1) e d) in
  let n := new_assignment d 1 2 1 (now (e 1%nat)) in
  exists h rest,
    snd (run (Keys.history (IntField 1)) (calm 300) d')
      = json 200 (History (h :: rest)) /\
    ka h = n /\ returnedAt n = None /\
    In (mkHistoryRow n "d@e.fr" "a@b.co") (h :: rest).
Proof.
  intros d e.
  apply (new_assignment_heads_history d 1 2 1 e (calm 300) "d@e.fr" "a@b.co");
    try reflexivity.
  - eexists. split; [right; left; reflexivity|]. split; reflexivity.
  - eexists. split; [left; reflexivity|]. split; reflexivity.
  - repeat constructor.
Defined.

(** ** The accounts *)


Lemma update_rows_unmatched (email : option string) (isActive : option bool)
  (uid : field) (t : Z) (l : list user) :
  (forall u, In u l -> col_eq (u_id u) uid = false) ->
  update_rows email isActive uid t l = l.
Proof.
  intros H. unfold update_rows. rewrite <- (map_id l) at 2.
  apply map_ext_in. intros u I. now rewrite (H u I).
Qed.









(** X13: [POST /api/users], when the storage layer does not fail the
    INSERT.  An invalid email is refused with the validation errors, and an
    email that a user already carries with 400 "Email already exists",
    both without any change; otherwise one active user is appended with
    the hashed password, and the 201 answer carries the new id, the email
    and the temporary password "password123". *)
Theorem create_user_spec
  (d : database) (email : string) (valid : bool) (hashed : string) (e : io) :
  fault (e 0%nat) = false ->
  let r := run (Users.create_user email valid hashed) e d in
  (valid = false -> r = (d, json 400 Errors)) /\
  (valid = true -> In email (map u_email (users d)) ->
   r = (d, json 400 (Error "Email already exists"))) /\
  (valid = true -> ~ In email (map u_email (users d)) ->
   snd r = json 201 (UserCreated (users_seq d + 1) email "password123") /\
   users (fst r) =
     users d ++ [mkUser (users_seq d + 1) email hashed true
                        (now (e 0%nat)) (now (e 0%nat))] /\
   keys (fst r) = keys d /\
   key_assignments (fst r) = key_assignments d).
Proof.
  intros F0. cbv zeta. rewrite run_create_user, F0.
  split; [intros ->; reflexivity|].
  split; intros -> I; simpl.
  - apply existsb_eqb_in in I. now rewrite I.
  - apply existsb_eqb_not_in in I. rewrite I. simpl. auto.
Qed.

Lemma create_user_spec_witness :
  let d := serve_all [(CreateUser "a@b.co" true "$2a$10$h", calm 10)] db_init in
  let r := run (Users.create_user "d@e.fr" true "$2a$10$i") (calm 11) d in
  (true = false -> r = (d, json 400 Errors)) /\
  (true = true -> In "d@e.fr"%string (map u_email (users d)) ->
   r = (d, json 400 (Error "Email already exists"))) /\
  (true = true -> ~ In "d@e.fr"%string (map u_email (users d)) ->
   snd r = json 201 (UserCreated (users_seq d + 1) "d@e.fr" "password123") /\
   users (fst r) =
     users d ++ [mkUser (users_seq d + 1) "d@e.fr" "$2a$10$i" true
                        (now (calm 11 0%nat)) (now (calm 11 0%nat))] /\
   keys (fst r) = keys d /\
   key_assignments (fst r) = key_assignments d).
Proof.
  intros d.
  apply (create_user_spec d "d@e.fr" true "$2a$10$i" (calm 11)). reflexivity.
Defined.

Lemma set_users_same (d : database) :
  set_users d (users d) (users_seq d) = d.
Proof. destruct d; reflexivity. Qed.

Lemma email_free (email : option string) (i : Z) (l : list user) :
  (forall em u', email = Some em -> In u' l -> u_id u' <> i ->
                 u_email u' <> em) ->
  email_taken email (IntField i) l = false.
Proof.
  intros H. destruct email as [em|]; [|reflexivity]. unfold email_taken.
  apply andb_false_iff. right.
  destruct (existsb _ l) eqn:X; [|reflexivity]. exfalso.
  apply existsb_exists in X. destruct X as [u' [I C]].
  apply andb_prop in C. destruct C as [C E].
  apply negb_true_iff in C. simpl in C. apply Z.eqb_neq in C.
  apply String.eqb_eq in E. exact (H em u' eq_refl I C E).
Qed.

Lemma update_rows_pointwise (email : option string) (isActive : option bool)
  (uid : field) (t : Z) (l : list user) :
  Forall2 (fun u u' => if col_eq (u_id u) uid
                       then u' = set_user_fields email isActive t u
                       else u' = u)
          l (update_rows email isActive uid t l).
Proof.
  induction l as [|u l IH]; simpl; constructor; [|exact IH].
  destruct (col_eq (u_id u) uid); reflexivity.
Qed.

Lemma valid_email_passes (email : option string) :
  match email with Some _ => negb true | None => false end = false.
Proof. destruct email; reflexivity. Qed.

(** X14: [PUT /api/users/:id] with something to update, an email (if
    any) that no other user carries, and an UPDATE that the storage layer
    does not fail.  The answer is 200; the rows of that id get the new
    email and the new active flag, where given, and the current time as
    [updatedAt], and keep their id, password and creation time; every other
    row, the key registry and the ledger are untouched; and when no user
    has that id the database is left exactly as it was. *)
Theorem update_user_spec
  (d : database) (i : Z) (email : option string) (isActive : option bool)
  (e : io) :
  fault (e 0%nat) = false ->
  pushed email <> None \/ isActive <> None ->
  (forall em u', pushed email = Some em -> In u' (users d) ->
                 u_id u' <> i -> u_email u' <> em) ->
  let r := account_run (Accounts.update_user (IntField i) email true isActive)
                       e d in
  snd r = ajson 200 (AMessage "User updated successfully") /\
  Forall2 (fun u u' =>
             if u_id u =? i
             then u' = mkUser (u_id u)
                         (match pushed email with
                          | Some em => em | None => u_email u end)
                         (u_password u)
                         (match isActive with
                          | Some b => b | None => u_isActive u end)
                         (u_createdAt u) (now (e 0%nat))
             else u' = u)
          (users d) (users (fst r)) /\
  ((forall u, In u (users d) -> u_id u <> i) -> fst r = d) /\
  keys (fst r) = keys d /\ key_assignments (fst r) = key_assignments d.
Proof.
  intros F0 S Free. cbv zeta.
  rewrite run_update_user, valid_email_passes, F0, (email_free _ _ _ Free).
  assert (G : snd (set_users d
                     (update_rows (pushed email) isActive (IntField i)
                                  (now (e 0%nat)) (users d)) (users_seq d),
                   ajson 200 (AMessage "User updated successfully"))
              = ajson 200 (AMessage "User updated successfully") /\
              Forall2 (fun u u' =>
                         if u_id u =? i
                         then u' = mkUser (u_id u)
                                     (match pushed email with
                                      | Some em => em | None => u_email u end)
                                     (u_password u)
                                     (match isActive with
                                      | Some b => b | None => u_isActive u end)
                                     (u_createdAt u) (now (e 0%nat))
                         else u' = u)
                      (users d)
                      (update_rows (pushed email) isActive (IntField i)
                                   (now (e 0%nat)) (users d)) /\
              ((forall u, In u (users d) -> u_id u <> i) ->
               set_users d
                 (update_rows (pushed email) isActive (IntField i)
                              (now (e 0%nat)) (users d)) (users_seq d) = d)).
  { split; [reflexivity|]. split.
    - exact (update_rows_pointwise (pushed email) isActive (IntField i)
                                   (now (e 0%nat)) (users d)).
    - intros U. rewrite update_rows_unmatched; [apply set_users_same|].
      intros u I. simpl. apply Z.eqb_neq, U, I. }
  destruct (pushed email) as [em|], isActive as [b|];
    try (destruct G as [G1 [G2 G3]]; repeat split; assumption).
  destruct S as [S|S]; congruence.
Qed.

Lemma update_user_spec_witness :
  let d := serve_all [(CreateUser "a@b.co" true "$2a$10$h", calm 10);
                      (CreateUser "d@e.fr" true "$2a$10$i", calm 11)] db_init in
  let r := account_run (Accounts.update_user (IntField 2)
                          (Some "g@h.io"%string) true (Some false))
                       (calm 20) d in
  users (fst r) = [mkUser 1 "a@b.co" "$2a$10$h" true 10 10;
                   mkUser 2 "g@h.io" "$2a$10$i" false 11 20] /\
  snd r = ajson 200 (AMessage "User updated successfully") /\
  Forall2 (fun u u' =>
             if u_id u =? 2
             then u' = mkUser (u_id u)
                         (match pushed (Some "g@h.io"%string) with
                          | Some em => em | None => u_email u end)
                         (u_password u)
                         (match Some false with
                          | Some b => b | None => u_isActive u end)
                         (u_createdAt u) (now (calm 20 0%nat))
             else u' = u)
          (users d) (users (fst r)) /\
  ((forall u, In u (users d) -> u_id u <> 2) -> fst r = d) /\
  keys (fst r) = keys d /\ key_assignments (fst r) = key_assignments d.
Proof.
  intros d. split; [reflexivity|].
  apply (update_user_spec d 2 (Some "g@h.io"%string) (Some false) (calm 20)).
  - reflexivity.
  - left. discriminate.
  - intros em u' E I N. injection E as <-.
    destruct I as [<-|[<-|[]]]; simpl in *; [discriminate | lia].
Defined.

(** X15: [PUT /api/users/:id] with the email of another user.  The UNIQUE
    constraint rejects the UPDATE, and the handler, which does not look at
    the message as [POST /api/users] does, answers 500 "Error updating
    user"; nothing is changed. *)
Theorem update_user_duplicate_email
  (d : database) (i : Z) (em : string) (isActive : option bool) (e : io)
  (u u' : user) :
  fault (e 0%nat) = false -> em <> EmptyString ->
  In u (users d) -> u_id u = i ->
  In u' (users d) -> u_id u' <> i -> u_email u' = em ->
  account_run (Accounts.update_user (IntField i) (Some em) true isActive) e d
  = (d, ajson 500 (AError "Error updating user")).
Proof.
  intros F0 N I E I' N' E'. rewrite run_update_user, F0. simpl.
  apply String.eqb_neq in N. rewrite N.
  assert (T : email_taken (Some em) (IntField i) (users d) = true).
  { unfold email_taken. apply andb_true_intro. split; apply existsb_exists.
    - exists u. split; [exact I|]. simpl. now apply Z.eqb_eq.
    - exists u'. split; [exact I'|]. simpl.
      apply andb_true_intro. split.
      + apply negb_true_iff. now apply Z.eqb_neq.
      + now apply String.eqb_eq. }
  rewrite T. destruct isActive; reflexivity.
Qed.

Lemma update_user_duplicate_email_witness :
  let d := serve_all [(CreateUser "a@b.co" true "$2a$10$h", calm 10);
                      (CreateUser "d@e.fr" true "$2a$10$i", calm 11)] db_init in
  account_run (Accounts.update_user (IntField 2) (Some "a@b.co"%string) true
                                    None) (calm 20) d
  = (d, ajson 500 (AError "Error updating user")) /\
  run (Users.create_user "a@b.co" true "$2a$10$j") (calm 20) d
  = (d, json 400 (Error "Email already exists")).
Proof.
  intros d. split; [|reflexivity].
  apply (update_user_duplicate_email d 2 "a@b.co" None (calm 20)
           (mkUser 2 "d@e.fr" "$2a$10$i" true 11 11)
           (mkUser 1 "a@b.co" "$2a$10$h" true 10 10));
    try reflexivity; try discriminate.
  - right; left; reflexivity.
  - left; reflexivity.
Defined.

(** X16: a [PUT /api/users/:id] that does not answer 200 (validation
    errors, nothing to update, an email that is taken, a storage failure)
    leaves the database as it was. *)
Theorem update_user_failure_leaves_database
  (d : database) (uid : field) (email : option string) (valid : bool)
  (isActive : option bool) (e : io) :
  let r := account_run (Accounts.update_user uid email valid isActive) e d in
  a_status (snd r) <> 200 -> fst r = d.
Proof.
  cbv zeta. rewrite run_update_user.
  destruct (match email with Some _ => negb valid | None => false end);
    [reflexivity|].
  destruct (pushed email), isActive; try reflexivity;
    (destruct (fault (e 0%nat)); [reflexivity|]);
    (destruct (email_taken _ _ _); [reflexivity|]);
    simpl; congruence.
Qed.

Lemma update_user_failure_leaves_database_witness :
  let d := serve_all [(CreateUser "a@b.co" true "$2a$10$h", calm 10)] db_init in
  let nothing := account_run (Accounts.update_user (IntField 1) None true None)
                             (calm 20) d in
  let invalid := account_run (Accounts.update_user (IntField 1)
                                (Some "nobody"%string) false (Some false))
                             (calm 20) d in
  (snd nothing = ajson 400 (AError "No valid updates provided") /\
   fst nothing = d) /\
  (snd invalid = ajson 400 AErrors /\ fst invalid = d).
Proof.
  intros d nothing invalid. split; (split; [reflexivity|]).
  - apply (update_user_failure_leaves_database d (IntField 1) None true None
                                               (calm 20)).
    discriminate.
  - apply (update_user_failure_leaves_database d (IntField 1)
             (Some "nobody"%string) false (Some false) (calm 20)).
    discriminate.
Defined.

(** X17: [DELETE /api/users/:id] deletes nothing.  When the storage layer
    does not fail the UPDATE the answer is 200; the rows of that id become
    inactive with the current time as [updatedAt] and keep everything
    else; every other row, the key registry and the ledger, the user's
    open assignments included, are untouched; and when no user has that id
    the database is left exactly as it was. *)
Theorem deactivate_user_spec (d : database) (uid : field) (e : io) :
  fault (e 0%nat) = false ->
  let r := account_run (Accounts.deactivate_user uid) e d in
  snd r = ajson 200 (AMessage "User deactivated successfully") /\
  Forall2 (fun u u' =>
             if col_eq (u_id u) uid
             then u' = mkUser (u_id u) (u_email u) (u_password u) false
                              (u_createdAt u) (now (e 0%nat))
             else u' = u)
          (users d) (users (fst r)) /\
  ((forall u, In u (users d) -> col_eq (u_id u) uid = false) -> fst r = d) /\
  keys (fst r) = keys d /\ key_assignments (fst r) = key_assignments d.
Proof.
  intros F0. cbv zeta. rewrite run_deactivate_user, F0. cbn [fst snd].
  split; [reflexivity|]. split; [|split; [|split; reflexivity]].
  - exact (update_rows_pointwise None (Some false) uid (now (e 0%nat))
                                 (users d)).
  - intros U. rewrite update_rows_unmatched by exact U.
    apply set_users_same.
Qed.

Lemma deactivate_user_spec_witness :
  let d := serve_all [(CreateUser "a@b.co" true "$2a$10$h", calm 10);
                      (Assign (IntField 1) (IntField 1) 1, calm 11)] db_init in
  let r := account_run (Accounts.deactivate_user (IntField 1)) (calm 20) d in
  users (fst r) = [mkUser 1 "a@b.co" "$2a$10$h" false 10 20] /\
  snd r = ajson 200 (AMessage "User deactivated successfully") /\
  Forall2 (fun u u' =>
             if col_eq (u_id u) (IntField 1)
             then u' = mkUser (u_id u) (u_email u) (u_password u) false
                              (u_createdAt u) (now (calm 20 0%nat))
             else u' = u)
          (users d) (users (fst r)) /\
  ((forall u, In u (users d) -> col_eq (u_id u) (IntField 1) = false) ->
   fst r = d) /\
  keys (fst r) = keys d /\ key_assignments (fst r) = key_assignments d.
Proof.
  intros d. split; [reflexivity|].
  apply (deactivate_user_spec d (IntField 1) (calm 20)). reflexivity.
Defined.

(** ** Accounts over time *)

Section Pointwise.
Context {A : Type} (R : A -> A -> Prop).
Hypothesis R_refl : forall x, R x x.
Hypothesis R_trans : forall x y z, R x y -> R y z -> R x z.

Lemma Forall2_same (l : list A) : Forall2 R l l.
Proof. induction l; constructor; auto. Qed.

Lemma Forall2_chain (l1 l2 l3 : list A) :
  Forall2 R l1 l2 -> Forall2 R l2 l3 -> Forall2 R l1 l3.
Proof.
  intros H. revert l3. induction H as [|x y l1 l2 K _ IH]; intros l3 H3.
  - inversion H3; constructor.
  - inversion H3 as [|y' z l2' l3' K' H3']; subst.
    constructor; [eapply R_trans; eassumption | apply IH, H3'].
Qed.
End Pointwise.

Lemma same_account_refl (u : user) : same_account u u.
Proof. unfold same_account. auto. Qed.

Lemma same_account_trans (u1 u2 u3 : user) :
  same_account u1 u2 -> same_account u2 u3 -> same_account u1 u3.
Proof. unfold same_account. intuition congruence. Qed.

Lemma accounts_extend_refl (l : list user) : accounts_extend l l.
Proof.
  exists l, []. split; [now rewrite app_nil_r|].
  apply Forall2_same, same_account_refl.
Qed.

Lemma accounts_extend_trans (l1 l2 l3 : list user) :
  accounts_extend l1 l2 -> accounts_extend l2 l3 -> accounts_extend l1 l3.
Proof.
  intros [a [b [-> Ha]]] [c [d [-> Hc]]].
  apply Forall2_app_inv_l in Hc. destruct Hc as [c1 [c2 [H1 [H2 ->]]]].
  exists c1, (c2 ++ d). split; [now rewrite app_assoc|].
  eapply Forall2_chain; [exact same_account_trans | eassumption..].
Qed.

Lemma accounts_extend_step (d : database) (r : service_request * io) :
  accounts_extend (users d) (users (service_serve d r)).
Proof.
  destruct (service_users d r)
    as [[E _]|[[em [h [t [_ [E _]]]]]|[em [ia [uid [t [_ [E _]]]]]]]];
    rewrite E.
  - apply accounts_extend_refl.
  - eexists _, _. split; [reflexivity|].
    apply Forall2_same, same_account_refl.
  - exists (update_rows em ia uid t (users d)), [].
    split; [now rewrite app_nil_r|].
    eapply Forall2_impl; [|apply update_rows_pointwise].
    intros u u'. simpl. destruct (col_eq (u_id u) uid); intros ->;
      unfold same_account; auto.
Qed.

Lemma accounts_extend_all (rs : list (service_request * io)) (d : database) :
  accounts_extend (users d) (users (service_serve_all rs d)).
Proof.
  apply (service_induction
           (fun d' => accounts_extend (users d) (users d'))).
  - intros d' r H. eapply accounts_extend_trans; [exact H|].
    apply accounts_extend_step.
  - apply accounts_extend_refl.
Qed.

Lemma accounts_extend_in (l l' : list user) (u : user) :
  accounts_extend l l' -> In u l ->
  exists u', In u' l' /\ same_account u u'.
Proof.
  intros [l1 [l2 [-> F]]] I.
  revert u I. induction F as [|x y l l1 K _ IH]; intros u I; [destruct I|].
  destruct I as [<-|I].
  - exists y. split; [left; reflexivity | exact K].
  - destruct (IH u I) as [u' [I' K']]. exists u'. split; [|exact K'].
    right. exact I'.
Qed.

(** X18: accounts are for ever, and so are their passwords.  Whatever
    requests are served, to any route but [login] (which writes nothing),
    every users row stays where it is with its id, its creation time and
    its password: no route deletes a user, and none changes the password
    that [POST /api/users] stored. *)
Theorem accounts_are_permanent
  (d : database) (rs : list (service_request * io)) :
  let d' := service_serve_all rs d in
  accounts_extend (users d) (users d') /\
  (length (users d) <= length (users d'))%nat /\
  (forall u, In u (users d) ->
     exists u', In u' (users d') /\ u_id u' = u_id u /\
                u_password u' = u_password u).
Proof.
  cbv zeta. pose proof (accounts_extend_all rs d) as X.
  split; [exact X|]. split.
  - destruct X as [l1 [l2 [-> F]]]. apply Forall2_length in F.
    rewrite length_app. lia.
  - intros u I. destruct (accounts_extend_in _ _ u X I) as [u' [I' [A [B _]]]].
    eauto.
Qed.

(** ** Login *)

Lemma NoDup_map_eq {A B : Type} (f : A -> B) (l : list A) (x y : A) :
  NoDup (map f l) -> In x l -> In y l -> f x = f y -> x = y.
Proof.
  induction l as [|z l IH]; simpl; intros N Ix Iy E; [destruct Ix|].
  inversion N as [|? ? Hz N']; subst.
  destruct Ix as [<-|Ix], Iy as [<-|Iy]; auto.
  - exfalso. apply Hz. rewrite E. now apply in_map.
  - exfalso. apply Hz. rewrite <- E. now apply in_map.
Qed.

Lemma find_none_in {A : Type} (f : A -> bool) (l : list A) :
  (forall x, In x l -> f x = false) -> find f l = None.
Proof.
  intros H. induction l as [|x l IH]; simpl; [reflexivity|].
  rewrite (H x (or_introl eq_refl)). apply IH. intros y I. apply H. now right.
Qed.

Lemma find_snoc {A : Type} (f : A -> bool) (l : list A) (x : A) :
  (forall y, In y l -> f y = false) -> f x = true ->
  find f (l ++ [x]) = Some x.
Proof.
  intros H T. induction l as [|y l IH]; simpl; [now rewrite T|].
  rewrite (H y (or_introl eq_refl)). apply IH. intros z I. apply H. now right.
Qed.

(** X19: [POST /api/auth/login] with a valid email, a password that is
    not empty and a SELECT that the storage layer does not fail, on a
    table where emails are distinct.  It never writes.  It answers 200,
    with a token signed for the id and email of the user and with that id
    and email, when the user of that email is active and the password
    matches the stored hash; and 401 "Invalid credentials", the same answer
    in each case, when no user has the email, when the user is inactive and
    when the password does not match. *)
Theorem login_spec
  (compare : string -> string -> bool) (sign : Z -> string -> string)
  (d : database) (email password : string) (e : io) :
  fault (e 0%nat) = false -> password <> EmptyString ->
  NoDup (map u_email (users d)) ->
  let r := account_run (Auth.login compare sign email true password) e d in
  fst r = d /\
  (forall u, In u (users d) -> u_email u = email -> u_isActive u = true ->
             compare password (u_password u) = true ->
             snd r = ajson 200 (Session (sign (u_id u) email) (u_id u) email))
  /\
  ((forall u, In u (users d) -> u_email u = email ->
              u_isActive u = false \/
              compare password (u_password u) = false) ->
   snd r = ajson 401 (AError "Invalid credentials")).
Proof.
  intros F0 P N. cbv zeta. rewrite run_login, F0.
  apply String.eqb_neq in P. rewrite P. cbn [negb orb].
  destruct (find _ _) as [u0|] eqn:F.
  - apply find_some in F. destruct F as [I0 A0].
    unfold active_with_email in A0. apply andb_prop in A0.
    destruct A0 as [E0 A0]. apply String.eqb_eq in E0.
    split; [destruct (negb _); reflexivity|]. split.
    + intros u I E A C.
      assert (u0 = u) by (apply (NoDup_map_eq u_email (users d)); congruence).
      subst u0. rewrite C. cbn [negb snd]. now rewrite E.
    + intros H. destruct (H u0 I0 E0) as [X|X]; [congruence|].
      now rewrite X.
  - split; [reflexivity|]. split; [|reflexivity].
    intros u I E A C. exfalso.
    pose proof (find_none _ _ F u I) as X. unfold active_with_email in X.
    rewrite A, andb_true_r in X. apply String.eqb_neq in X. congruence.
Qed.

Lemma login_spec_witness :
  let d := serve_all [(CreateUser "a@b.co" true "password123", calm 10)]
                     db_init in
  let r := account_run (Auth.login String.eqb (fun _ em => em) "a@b.co" true
                                   "password123") (calm 20) d in
  snd r = ajson 200 (Session "a@b.co" 1 "a@b.co") /\
  fst r = d /\
  (forall u, In u (users d) -> u_email u = "a@b.co"%string ->
             u_isActive u = true ->
             String.eqb "password123" (u_password u) = true ->
             snd r = ajson 200 (Session "a@b.co" (u_id u) "a@b.co")) /\
  ((forall u, In u (users d) -> u_email u = "a@b.co"%string ->
              u_isActive u = false \/
              String.eqb "password123" (u_password u) = false) ->
   snd r = ajson 401 (AError "Invalid credentials")).
Proof.
  intros d. split; [reflexivity|].
  apply (login_spec String.eqb (fun _ em => em) d "a@b.co" "password123"
                    (calm 20)).
  - reflexivity.
  - discriminate.
  - repeat constructor. simpl. tauto.
Defined.

(** X20: a deactivated user cannot log in.  On a table where emails are
    distinct, once [DELETE /api/users/:id] has answered for the id of a
    user, a login with the email of that user answers 401 "Invalid
    credentials" whatever the password. *)
Theorem deactivated_user_cannot_log_in
  (compare : string -> string -> bool) (sign : Z -> string -> string)
  (d : database) (u : user) (password : string) (e e' : io) :
  fault (e 0%nat) = false -> fault (e' 0%nat) = false ->
  password <> EmptyString ->
  NoDup (map u_email (users d)) -> In u (users d) ->
  let d' := fst (account_run (Accounts.deactivate_user (IntField (u_id u)))
                             e d) in
  snd (account_run (Auth.login compare sign (u_email u) true password) e' d')
  = ajson 401 (AError "Invalid credentials").
Proof.
  intros F0 F0' P N I. cbv zeta.
  rewrite run_deactivate_user, F0. cbn [fst].
  rewrite run_login, F0'. apply String.eqb_neq in P. rewrite P.
  cbn [negb orb users set_users].
  rewrite find_none_in; [reflexivity|].
  intros v Iv. unfold update_rows in Iv. apply in_map_iff in Iv.
  destruct Iv as [w [Ew Iw]]. unfold active_with_email.
  destruct (String.eqb (u_email v) (u_email u)) eqn:E; [|reflexivity].
  apply String.eqb_eq in E. simpl.
  destruct (col_eq (u_id w) (IntField (u_id u))) eqn:C; subst v.
  - reflexivity.
  - exfalso. simpl in E, C. apply Z.eqb_neq in C. apply C.
    now rewrite (NoDup_map_eq u_email (users d) w u N Iw I E).
Qed.

Lemma deactivated_user_cannot_log_in_witness :
  let d := serve_all [(CreateUser "a@b.co" true "password123", calm 10)]
                     db_init in
  let u := mkUser 1 "a@b.co" "password123" true 10 10 in
  let d' := fst (account_run (Accounts.deactivate_user (IntField (u_id u)))
                             (calm 20) d) in
  snd (account_run (Auth.login String.eqb (fun _ em => em) "a@b.co" true
                               "password123") (calm 15) d)
  = ajson 200 (Session "a@b.co" 1 "a@b.co") /\
  snd (account_run (Auth.login String.eqb (fun _ em => em) (u_email u) true
                               "password123") (calm 30) d')
  = ajson 401 (AError "Invalid credentials").
Proof.
  intros d u. split; [reflexivity|].
  apply (deactivated_user_cannot_log_in String.eqb (fun _ em => em) d u
           "password123" (calm 20) (calm 30)); try reflexivity.
  - discriminate.
  - repeat constructor. simpl. tauto.
  - left. reflexivity.
Defined.

(** X21: a user that [POST /api/users] has just created can log in with
    the temporary password.  When the email is new and [bcrypt.compare]
    accepts "password123" against the stored hash, the creation answers 201
    and a login with that email and "password123" answers 200 for the new
    id. *)
Theorem created_user_can_log_in
  (compare : string -> string -> bool) (sign : Z -> string -> string)
  (d : database) (email hashed : string) (e e' : io) :
  fault (e 0%nat) = false -> fault (e' 0%nat) = false ->
  ~ In email (map u_email (users d)) ->
  compare "password123"%string hashed = true ->
  let r := run (Users.create_user email true hashed) e d in
  snd r = json 201 (UserCreated (users_seq d + 1) email "password123") /\
  snd (account_run (Auth.login compare sign email true "password123") e'
                   (fst r))
  = ajson 200 (Session (sign (users_seq d + 1) email) (users_seq d + 1)
                       email).
Proof.
  intros F0 F0' N C. cbv zeta. rewrite run_create_user, F0.
  apply existsb_eqb_not_in in N. rewrite N. cbn [negb fst snd].
  split; [reflexivity|].
  rewrite run_login, F0'. cbn [negb orb users set_users].
  replace (String.eqb "password123" EmptyString) with false by reflexivity.
  rewrite (find_snoc (active_with_email email) (users d)
             (mkUser (users_seq d + 1) email hashed true (now (e 0%nat))
                     (now (e 0%nat)))).
  - cbn [u_password u_id u_email]. rewrite C. reflexivity.
  - intros y I. unfold active_with_email.
    destruct (String.eqb (u_email y) email) eqn:E; [|reflexivity].
    exfalso.
    assert (X : existsb (fun u => String.eqb (u_email u) email) (users d)
                = true) by (apply existsb_exists; eauto).
    congruence.
  - unfold active_with_email. simpl. now rewrite String.eqb_refl.
Qed.

Lemma created_user_can_log_in_witness :
  let r := run (Users.create_user "a@b.co" true "password123") (calm 10)
               db_init in
  snd r = json 201 (UserCreated (users_seq db_init + 1) "a@b.co"
                                "password123") /\
  snd (account_run (Auth.login String.eqb (fun _ em => em) "a@b.co" true
                               "password123") (calm 20) (fst r))
  = ajson 200 (Session "a@b.co" (users_seq db_init + 1) "a@b.co").
Proof.
  apply (created_user_can_log_in String.eqb (fun _ em => em) db_init
           "a@b.co" "password123" (calm 10) (calm 20));
    try reflexivity.
  simpl. tauto.
Defined.

(** ** The history and the accounts *)

(** X22: what the history shows, it keeps showing.  If the history of a
    key shows an assignment, then after any requests, to any route, the
    history of the key still shows that assignment: with the same id, key,
    holder, actor and [assignedAt], and closed at the same time if it was
    closed. *)
Theorem history_keeps_showing
  (d : database) (k : Z) (rs : list (service_request * io)) (e e' : io)
  (rows : list history_row) (h : history_row) :
  fault (e' 0%nat) = false ->
  snd (run (Keys.history (IntField k)) e d) = json 200 (History rows) ->
  In h rows ->
  exists rows' h',
    snd (run (Keys.history (IntField k)) e' (service_serve_all rs d))
      = json 200 (History rows') /\
    In h' rows' /\ kept (ka h) (ka h').
Proof.
  intros F0' R I. rewrite run_history in R.
  destruct (fault (e 0%nat)); [discriminate|]. cbn [snd] in R.
  injection R as <-. apply in_history in I.
  destruct I as [Ir [Kr [[u1 [I1 [E1 _]]] [u2 [I2 [E2 _]]]]]].
  destruct (extends_in _ _ _ (ledger_extends_all rs d) Ir) as [r' [Ir' K]].
  destruct (accounts_extend_in _ _ _ (accounts_extend_all rs d) I1)
    as [v1 [J1 [A1 _]]].
  destruct (accounts_extend_in _ _ _ (accounts_extend_all rs d) I2)
    as [v2 [J2 [A2 _]]].
  rewrite run_history, F0'. cbn [snd].
  eexists _, (mkHistoryRow r' (u_email v1) (u_email v2)).
  split; [reflexivity|]. split; [|exact K].
  apply in_history. cbn [ka assignedToEmail assignedByEmail].
  destruct K as [_ [K2 [K3 [K4 _]]]].
  rewrite K2, K3, K4. unfold user_with.
  repeat split; [exact Ir' | exact Kr | exists v1 | exists v2];
    repeat split; congruence.
Qed.

Lemma history_keeps_showing_witness :
  let d := serve_all
             [(CreateUser "a@b.co" true "$2a$10$h", calm 10);
              (Assign (IntField 1) (IntField 1) 1, calm 100)] db_init in
  let rs := [(ToAccounts (DeleteUser (IntField 1)), calm 110);
             (ToAccounts (UpdateUserReq (IntField 1) (Some "g@h.io"%string)
                                        true None), calm 120);
             (ToKeys (Return (IntField 1)), calm 130)] in
  let h := mkHistoryRow (mkAssignment 1 1 1 1 100 None) "a@b.co" "a@b.co" in
  snd (run (Keys.history (IntField 1)) (calm 200) (service_serve_all rs d))
    = json 200 (History [mkHistoryRow (mkAssignment 1 1 1 1 100 (Some 130))
                                      "g@h.io" "g@h.io"]) /\
  exists rows' h',
    snd (run (Keys.history (IntField 1)) (calm 200) (service_serve_all rs d))
      = json 200 (History rows') /\
    In h' rows' /\ kept (ka h) (ka h').
Proof.
  intros d rs h. split; [reflexivity|].
  apply (history_keeps_showing d 1 rs (calm 105) (calm 200) [h] h).
  - reflexivity.
  - reflexivity.
  - left. reflexivity.
Defined.

(** ** Available, assigned, available *)

Lemma closed_when_none_open (k : Z) (l : list assignment) :
  filter (open_for (IntField k)) l = [] ->
  Forall (fun r => is_open r = false) (filter (fun r => keyId r =? k) l).
Proof.
  intros O. apply Forall_forall. intros r I. apply filter_In in I.
  destruct I as [I K].
  pose proof (filter_nil_all_false _ l O r I) as X.
  unfold open_for in X. simpl in X. now rewrite K in X.
Qed.

Lemma close_row_key (kf : field) (t : Z) (r : assignment) :
  keyId (close_row kf t r) = keyId r.
Proof. unfold close_row. destruct (open_for kf r); reflexivity. Qed.

Lemma close_row_stays_closed (kf : field) (t : Z) (r : assignment) :
  is_open r = false -> is_open (close_row kf t r) = false.
Proof.
  intros C. unfold close_row. destruct (open_for kf r); [reflexivity|exact C].
Qed.

Lemma key_rows_close (k : Z) (kf : field) (t : Z) (l : list assignment) :
  filter (fun r => keyId r =? k) (map (close_row kf t) l)
  = map (close_row kf t) (filter (fun r => keyId r =? k) l).
Proof.
  induction l as [|r l IH]; simpl; [reflexivity|].
  rewrite close_row_key. destruct (keyId r =? k); simpl; now rewrite IH.
Qed.

Lemma removelast_map {A B : Type} (f : A -> B) (l : list A) :
  removelast (map f l) = map f (removelast l).
Proof.
  induction l as [|x l IH]; simpl; [reflexivity|].
  destruct l; simpl in *; [reflexivity|]. now rewrite IH.
Qed.

Lemma only_last_open_step (d : database) (r : service_request * io) :
  (forall k, only_last_open d k) ->
  forall k, only_last_open (service_serve d r) k.
Proof.
  intros H k. specialize (H k). unfold only_last_open, key_rows in *.
  destruct (service_ledger d r)
    as [[E _]|[[k0 [a [b [t [O [E _]]]]]]|[kf [t [E _]]]]]; rewrite E.
  - exact H.
  - rewrite filter_app. simpl. destruct (k0 =? k) eqn:K.
    + apply Z.eqb_eq in K. subst k0. rewrite removelast_last.
      now apply closed_when_none_open.
    + now rewrite app_nil_r.
  - rewrite key_rows_close, removelast_map. apply Forall_map.
    eapply Forall_impl; [|exact H].
    intros x. apply close_row_stays_closed.
Qed.

Lemma open_rows_of_key_rows (d : database) (k : Z) :
  open_rows d k = filter is_open (key_rows d k).
Proof.
  unfold open_rows, key_rows.
  induction (key_assignments d) as [|r l IH]; simpl; [reflexivity|].
  unfold open_for at 1. simpl.
  destruct (keyId r =? k); simpl; [destruct (is_open r)|]; now rewrite IH.
Qed.

Lemma filter_open_last (l : list assignment) :
  Forall (fun r => is_open r = false) (removelast l) ->
  (length (filter is_open l) <= 1)%nat.
Proof.
  induction l as [|x l IH]; simpl; [lia|].
  destruct l as [|y l].
  - destruct (is_open x); simpl; lia.
  - intros F. inversion F as [|? ? Cx F']; subst. rewrite Cx.
    apply IH, F'.
Qed.

(** X23: available, assigned, available.  In every database that the
    routes can produce from the fresh one, serving requests one after the
    other, only the last assignment of a key can be open: every earlier
    one is closed.  So a key has at most one open assignment, whatever the
    routes that were called. *)
Theorem only_last_assignment_open (d : database) (k : Z) :
  service_reachable d ->
  only_last_open d k /\ (length (open_rows d k) <= 1)%nat.
Proof.
  intros [rs <-].
  assert (H : forall k', only_last_open (service_serve_all rs db_init) k').
  { apply (service_induction (fun d => forall k', only_last_open d k')
                             only_last_open_step).
    intros k'. constructor. }
  split; [apply H|].
  rewrite open_rows_of_key_rows. apply filter_open_last, H.
Qed.

Lemma only_last_assignment_open_witness :
  let d := service_serve_all
             [(ToKeys (Assign (IntField 1) (IntField 7) 1), calm 100);
              (ToKeys (Return (IntField 1)), calm 110);
              (ToKeys (Assign (IntField 2) (IntField 7) 1), calm 120);
              (ToKeys (Assign (IntField 1) (IntField 8) 1), calm 130);
              (ToKeys (Assign (IntField 1) (IntField 9) 1), calm 140)]
             db_init in
  map (fun r => (id r, is_open r)) (key_rows d 1) = [(1, false); (3, true)] /\
  only_last_open d 1 /\ (length (open_rows d 1) <= 1)%nat.
Proof.
  intros d. split; [reflexivity|].
  apply (only_last_assignment_open d 1). eexists. reflexivity.
Defined.
